(** * pytube.contrib.channel: the shorts/videos pagination engine

    A shallow embedding of [Channel._extract_videos], [Channel._extract_shorts],
    [Channel._paginate_shorts] and [Channel.shorts_url_generator]
    (src/pytube/contrib/channel.py), with the Python operations they are
    written in: subscripting of parsed JSON values, [try]/[except] with an
    exception-class filter, [str.split], [list.index], slices, truthiness,
    and the generator protocol. *)

From Stdlib Require Import ZArith Ascii Floats.SpecFloat.
From stdpp Require Import base strings list gmap.

Local Set Warnings "-register-all,-clear-no-such-hyp".
Local Open Scope string_scope.
Local Open Scope list_scope.

(** ** Parsed JSON documents (the values [json.loads] returns)

    [None], [bool], [int], [float], [str], [list], [dict].  A dict is kept as
    its key/value pairs in the order the parser read them; a key read twice
    keeps the place of its first occurrence and the value of its last one,
    which is what [json.loads] builds.  A [str] is a sequence of characters. *)
Inductive json : Type :=
| JNull
| JBool (b : bool)
| JInt (z : Z)
| JFloat (f : spec_float)
| JStr (s : string)
| JArr (l : list json)
| JObj (kvs : list (string * json)).

(** ** Exceptions and results *)
Inductive exn : Type :=
| KeyError
| IndexError
| TypeError
| AttributeError
| ValueError
| TransportError.

Global Instance exn_eq_dec : EqDecision exn.
Proof. solve_decision. Defined.

Inductive result (A : Type) : Type :=
| Ok (a : A)
| Raise (e : exn).
Arguments Ok {A} a.
Arguments Raise {A} e.

Global Instance result_ret : MRet result := fun A a => Ok a.
Global Instance result_bind : MBind result := fun A B k r =>
  match r with
  | Ok a => k a
  | Raise e => Raise e
  end.

(** [try: body except (classes): handler]. *)
Definition try_except {A} (body : result A) (classes : list exn)
    (handler : exn -> result A) : result A :=
  match body with
  | Ok a => Ok a
  | Raise e => if bool_decide (e ∈ classes) then handler e else Raise e
  end.

(** [list(map(f, xs))]: the first element on which [f] raises ends the map. *)
Fixpoint map_result {A B} (f : A -> result B) (xs : list A) : result (list B) :=
  match xs with
  | [] => Ok []
  | x :: xs' => y ← f x; ys ← map_result f xs'; Ok (y :: ys)
  end.

(** ** Python operations on parsed JSON *)
Module Py.

(** Truth value of [if v:]. *)
Definition truthy (v : json) : bool :=
  match v with
  | JNull => false
  | JBool b => b
  | JInt z => negb (z =? 0)%Z
  | JFloat (S754_zero _) => false
  | JFloat _ => true
  | JStr s => negb (String.eqb s "")
  | JArr l => match l with [] => false | _ => true end
  | JObj kvs => match kvs with [] => false | _ => true end
  end.

(** A subscript is a [str] or an [int] literal. *)
Inductive key : Type :=
| KStr (s : string)
| KInt (i : Z).

(** [d[k]] on a dict: the value last bound to [k]. *)
Fixpoint dict_get (kvs : list (string * json)) (k : string) : option json :=
  match kvs with
  | [] => None
  | (k', v) :: rest =>
      match dict_get rest k with
      | Some v' => Some v'
      | None => if String.eqb k' k then Some v else None
      end
  end.

(** Keys of a dict in iteration order (place of first occurrence). *)
Fixpoint dict_keys (seen : list string) (kvs : list (string * json))
    : list string :=
  match kvs with
  | [] => []
  | (k, _) :: rest =>
      if bool_decide (k ∈ seen) then dict_keys seen rest
      else k :: dict_keys (k :: seen) rest
  end.

(** [xs[i]] on a sequence of length [n]: a negative [i] counts from the
    end; out of range is [IndexError]. *)
Definition seq_index (n : nat) (i : Z) : option nat :=
  let j := if (i <? 0)%Z then (i + Z.of_nat n)%Z else i in
  if ((0 <=? j) && (j <? Z.of_nat n))%Z then Some (Z.to_nat j) else None.

Definition list_getitem {A} (l : list A) (i : Z) : result A :=
  match seq_index (length l) i with
  | Some j => match l !! j with Some x => Ok x | None => Raise IndexError end
  | None => Raise IndexError
  end.

Fixpoint chars (s : string) : list string :=
  match s with
  | EmptyString => []
  | String c r => String c EmptyString :: chars r
  end.

(** [v[k]]. *)
Definition getitem (v : json) (k : key) : result json :=
  match v, k with
  | JObj kvs, KStr s =>
      match dict_get kvs s with Some x => Ok x | None => Raise KeyError end
  | JObj _, KInt _ => Raise KeyError
  | JArr l, KInt i => list_getitem l i
  | JArr _, KStr _ => Raise TypeError
  | JStr s, KInt i => c ← list_getitem (chars s) i; Ok (JStr c)
  | JStr _, KStr _ => Raise TypeError
  | _, _ => Raise TypeError
  end.

(** [v[k1][k2]...[kn]], evaluated left to right. *)
Fixpoint getpath (v : json) (path : list key) : result json :=
  match path with
  | [] => Ok v
  | k :: path' => w ← getitem v k; getpath w path'
  end.

(** [v[:-1]] (Python 3.12, which the f-string of line 363 needs: a slice is
    hashable, so a dict answers [KeyError]). *)
Definition drop_last (v : json) : result json :=
  match v with
  | JArr l => Ok (JArr (removelast l))
  | JStr s => Ok (JStr (String.concat "" (removelast (chars s))))
  | JObj _ => Raise KeyError
  | _ => Raise TypeError
  end.

(** The elements [map(f, v)] walks through. *)
Definition iterate (v : json) : result (list json) :=
  match v with
  | JArr l => Ok l
  | JObj kvs => Ok (JStr <$> dict_keys [] kvs)
  | JStr s => Ok (JStr <$> chars s)
  | _ => Raise TypeError
  end.

(** [s.split(sep)] for a one-character separator: never empty. *)
Fixpoint split (sep : Ascii.ascii) (s : string) : list string :=
  match s with
  | EmptyString => [EmptyString]
  | String c r =>
      if Ascii.eqb c sep then EmptyString :: split sep r
      else match split sep r with
           | h :: t => String c h :: t
           | [] => [String c EmptyString]
           end
  end.

(** [v.split("/")]: only a [str] has the method. *)
Definition split_slash (v : json) : result (list string) :=
  match v with
  | JStr s => Ok (split "/"%char s)
  | _ => Raise AttributeError
  end.

(** [xs.index(x)]: the first position of [x], or [ValueError]. *)
Fixpoint index (xs : list string) (x : string) : result nat :=
  match xs with
  | [] => Raise ValueError
  | y :: ys => if String.eqb y x then Ok 0 else i ← index ys x; Ok (S i)
  end.

End Py.

Import Py.

Global Instance result_fmap : FMap result := fun A B f r =>
  match r with
  | Ok a => Ok (f a)
  | Raise e => Raise e
  end.

(** ** Observable effects

    What a call leaves behind besides its value: a file written, a POST sent
    through [pytube.request], a batch handed to the consumer of a generator.
    Calls to [logger] are left out. *)
Inductive event : Type :=
| WriteFile (path content : string)
| Post (load_more_url headers data : json)
| Yield (batch : list string).

Record io (A : Type) : Type := IO { trace : list event; outcome : result A }.
Arguments IO {A} trace outcome.
Arguments trace {A} i.
Arguments outcome {A} i.

Global Instance io_ret : MRet io := fun A a => IO [] (Ok a).
Global Instance io_bind : MBind io := fun A B k m =>
  match outcome m with
  | Ok a => IO (trace m ++ trace (k a)) (outcome (k a))
  | Raise e => IO (trace m) (Raise e)
  end.

Definition emit (e : event) : io unit := IO [e] (Ok tt).
Definition pure_call {A} (r : result A) : io A := IO [] r.

(** The files a trace leaves, over the files there were. *)
Fixpoint files_after (tr : list event) (fs : string -> option string)
    : string -> option string :=
  match tr with
  | [] => fs
  | WriteFile path content :: tr' =>
      files_after tr' (fun p => if String.eqb p path then Some content else fs p)
  | _ :: tr' => files_after tr' fs
  end.

Definition batches (tr : list event) : list (list string) :=
  omap (fun e => match e with Yield b => Some b | _ => None end) tr.

Definition posts (tr : list event) : list (json * json * json) :=
  omap (fun e => match e with Post u h d => Some (u, h, d) | _ => None end) tr.

(** ** [pytube.helpers.uniqueify] *)

(** Modelled from the spec: [uniqueify] is imported from [pytube.helpers],
    whose source is not part of channel.py.  Spec 4.4 and 3: it removes
    repeated references with a seen-set, the first occurrence wins and the
    relative order of what remains is kept. *)
Fixpoint uniqueify_from (seen : gset string) (duped_list : list string)
    : list string :=
  match duped_list with
  | [] => []
  | item :: rest =>
      if bool_decide (item ∈ seen) then uniqueify_from seen rest
      else item :: uniqueify_from ({[item]} ∪ seen) rest
  end.

(** Modelled from the spec: [uniqueify] of [pytube.helpers], the pass above
    started with nothing seen. *)
Definition uniqueify (duped_list : list string) : list string :=
  uniqueify_from ∅ duped_list.

(** The spec's words for the same list: the distinct elements in order of
    first occurrence. *)
Fixpoint first_occurrences (l : list string) : list string :=
  match l with
  | [] => []
  | x :: l' => x :: filter (fun y => y ≠ x) (first_occurrences l')
  end.

(** ** The extractors *)

(** The three tree shapes (lines 161-164 / 325, 169-171 / 330-332,
    178-179 / 339-340); [tab] is 1 for videos and 2 for shorts. *)
Definition initial_page_shape (tab : Z) : list key :=
  [KStr "contents"; KStr "twoColumnBrowseResultsRenderer"; KStr "tabs";
   KInt tab; KStr "tabRenderer"; KStr "content"; KStr "richGridRenderer";
   KStr "contents"].

Definition legacy_continuation_shape : list key :=
  [KInt 1; KStr "response"; KStr "onResponseReceivedActions"; KInt 0;
   KStr "appendContinuationItemsAction"; KStr "continuationItems"].

Definition continuation_shape : list key :=
  [KStr "onResponseReceivedActions"; KInt 0;
   KStr "appendContinuationItemsAction"; KStr "continuationItems"].

(** Lines 160-183 / 324-344: the nested [try] blocks.  [Some videos] when a
    shape matched, [None] where the source returns [[], None]. *)
Definition resolve (tab : Z) (initial_data : json) : result (option json) :=
  try_except (Some <$> getpath initial_data (initial_page_shape tab))
    [KeyError; IndexError; TypeError] (fun _ =>
  try_except (Some <$> getpath initial_data legacy_continuation_shape)
    [KeyError; IndexError; TypeError] (fun _ =>
  try_except (Some <$> getpath initial_data continuation_shape)
    [KeyError; IndexError; TypeError] (fun _ =>
  Ok None))).

(** The spec's words for the resolver: an ordered list of shapes, the first
    one whose lookup succeeds wins, whatever made the earlier ones fail. *)
Fixpoint first_match (shapes : list (list key)) (raw : json) : option json :=
  match shapes with
  | [] => None
  | shape :: shapes' =>
      match getpath raw shape with
      | Ok entries => Some entries
      | Raise _ => first_match shapes' raw
      end
  end.

Definition shapes (tab : Z) : list (list key) :=
  [initial_page_shape tab; legacy_continuation_shape; continuation_shape].

(** Lines 185-192 / 346-353: the continuation marker.  [marker_path] is the
    shape of the marker itself, under the trailing entry [videos[-1]]. *)
Definition marker_path : list key :=
  [KStr "continuationItemRenderer"; KStr "continuationEndpoint";
   KStr "continuationCommand"; KStr "token"].

Definition token_path : list key :=
  [KInt (-1); KStr "continuationItemRenderer"; KStr "continuationEndpoint";
   KStr "continuationCommand"; KStr "token"].

Definition split_continuation (videos : json) : result (json * json) :=
  try_except
    (continuation ← getpath videos token_path;
     videos' ← drop_last videos;
     Ok (videos', continuation))
    [KeyError; IndexError]
    (fun _ => Ok (videos, JNull)).

(** Lines 195-209 / 356-371: [uniqueify(list(map(f, videos))), continuation]. *)
Definition references (f : json -> result string) (videos continuation : json)
    : result (list string * json) :=
  items ← iterate videos;
  paths ← map_result f items;
  Ok (uniqueify paths, continuation).

Section Extract.

(** [str(v)] of a value that is not a [str], as an f-string field prints
    it, and [json.dumps(v, ensure_ascii=False, indent=4)]: Python's own. *)
Variable py_str : json -> string.
Variable dumps : json -> string.

Definition format_field (v : json) : string :=
  match v with
  | JStr s => s
  | _ => py_str v
  end.

(** The lambda of lines 200-203. *)
Definition video_path (x : json) : result string :=
  videoId ← getpath x [KStr "richItemRenderer"; KStr "content";
                       KStr "videoRenderer"; KStr "videoId"];
  Ok ("/watch?v=" +:+ format_field videoId).

(** The lambda of lines 361-365. *)
Definition short_path (x : json) : result string :=
  url ← getpath x [KStr "richItemRenderer"; KStr "content";
                   KStr "shortsLockupViewModel"; KStr "onTap";
                   KStr "innertubeCommand"; KStr "commandMetadata";
                   KStr "webCommandMetadata"; KStr "url"];
  parts ← split_slash url;
  last ← list_getitem parts (-1);
  Ok ("/shorts/" +:+ last).

(** [raw_json] is taken parsed: [initial_data] is [json.loads(raw_json)].
    In [_extract_shorts] the file is taken to open and the write to go
    through. *)
Definition _extract_videos (initial_data : json)
    : result (list string * json) :=
  found ← resolve 1 initial_data;
  match found with
  | None => Ok ([], JNull)
  | Some videos =>
      '(videos, continuation) ← split_continuation videos;
      references video_path videos continuation
  end.

Definition _extract_shorts (initial_data : json) : io (list string * json) :=
  _ ← emit (WriteFile "shorts_initial_data.json" (dumps initial_data));
  found ← pure_call (resolve 2 initial_data);
  match found with
  | None => mret ([], JNull)
  | Some videos =>
      '(videos, continuation) ← pure_call (split_continuation videos);
      pure_call (references short_path videos continuation)
  end.

End Extract.

(** Lines 324-367 up to the call of [uniqueify]: the list
    [list(map(lambda x: ..., videos))] of a shorts page, one reference for
    every entry in the order of the page, repeats included. *)
Definition entry_references (initial_data : json) : result (list string) :=
  found ← resolve 2 initial_data;
  match found with
  | None => Ok []
  | Some videos =>
      '(videos, _) ← split_continuation videos;
      items ← iterate videos;
      map_result short_path items
  end.

(** ** The page generator [_paginate_shorts] *)

(** Where the generator is suspended between two calls of [next]. *)
Inductive gen_state : Type :=
| Created
| AtTrimmedYield
| AtPageYield (continuation : json)
| Closed.

Section Walker.

Variable dumps : json -> string.

(** [Playlist._build_continuation_url], inherited: the url, the headers
    and the body of the next request (spec 4.5). *)
Variable _build_continuation_url : json -> json * json * json.

(** [request.post(load_more_url, extra_headers=headers, data=data)], the
    body read by [json.loads]; [Raise] when the transport fails. *)
Variable post : json -> json -> json -> result json.

(** [extract.initial_data(self.shorts_html)]. *)
Variable shorts_initial_data : json.

(** [Playlist._video_url], inherited. *)
Variable _video_url : string -> string.

Definition supplied (until_watch_id : option string) : bool :=
  match until_watch_id with
  | Some id => negb (String.eqb id "")
  | None => false
  end.

(** Lines 242-249 with [prefix = "/shorts/"], lines 268-275 with
    [prefix = "/shorts/="]: the batch to yield and where the generator
    stands after it. *)
Definition scan_page (prefix : string) (until_watch_id : option string)
    (videos_urls : list string) (continuation : json)
    : result (list string * gen_state) :=
  if supplied until_watch_id then
    try_except
      (trim_index ← index videos_urls (prefix +:+ default "" until_watch_id);
       Ok (take trim_index videos_urls, AtTrimmedYield))
      [ValueError]
      (fun _ => Ok (videos_urls, AtPageYield continuation))
  else Ok (videos_urls, AtPageYield continuation).

(** Lines 255-258 / 277-282. *)
Definition load_more (continuation : json) : json * json * json :=
  if truthy continuation then _build_continuation_url continuation
  else (JNull, JNull, JNull).

(** One call of [next]: [Some (batch, st)] for a yielded batch, [None] for
    [StopIteration]. *)
Definition next (until_watch_id : option string) (st : gen_state)
    : io (option (list string * gen_state)) :=
  match st with
  | Created =>
      '(videos_urls, continuation) ← _extract_shorts dumps shorts_initial_data;
      y ← pure_call (scan_page "/shorts/" until_watch_id videos_urls continuation);
      mret (Some y)
  | AtPageYield continuation =>
      let '(load_more_url, headers, data) := load_more continuation in
      if truthy load_more_url && truthy headers && truthy data then
        _ ← emit (Post load_more_url headers data);
        req ← pure_call (post load_more_url headers data);
        '(videos_urls, continuation) ← _extract_shorts dumps req;
        y ← pure_call (scan_page "/shorts/=" until_watch_id videos_urls continuation);
        mret (Some y)
      else mret None
  | AtTrimmedYield => mret None
  | Closed => mret None
  end.

(** A consumer that calls [next] at most [n] times. *)
Fixpoint pull (until_watch_id : option string) (n : nat) (st : gen_state)
    : io gen_state :=
  match n with
  | 0 => mret st
  | S n' =>
      r ← next until_watch_id st;
      match r with
      | Some (batch, st') => _ ← emit (Yield batch); pull until_watch_id n' st'
      | None => mret Closed
      end
  end.

Definition _paginate_shorts (until_watch_id : option string) (n : nat)
    : io gen_state :=
  pull until_watch_id n Created.

(** Lines 289-291: what the URL generator has yielded once it has asked
    [_paginate_shorts()] for a page [n] times. *)
Definition shorts_url_generator (n : nat) : list string :=
  _video_url <$> concat (batches (trace (_paginate_shorts None n))).

(** A finite chain of pages under [post]: [chain page batches requests]
    when [page] and the pages fetched after it extract to [batches], each
    page but the last with a continuation token whose request [post] answers
    with the next page, the last page with no token. *)
Inductive chain : json -> list (list string) -> list (json * json * json)
    -> Prop :=
| chain_last page refs continuation :
    outcome (_extract_shorts dumps page) = Ok (refs, continuation) ->
    truthy continuation = false ->
    chain page [refs] []
| chain_next page refs continuation load_more_url headers data req
      batches requests :
    outcome (_extract_shorts dumps page) = Ok (refs, continuation) ->
    truthy continuation = true ->
    _build_continuation_url continuation = (load_more_url, headers, data) ->
    truthy load_more_url && truthy headers && truthy data = true ->
    post load_more_url headers data = Ok req ->
    chain req batches requests ->
    chain page (refs :: batches) ((load_more_url, headers, data) :: requests).

End Walker.

(** ** Pages to run the code on *)
Module Pages.

Fixpoint nest (keys : list string) (v : json) : json :=
  match keys with
  | [] => v
  | k :: keys' => JObj [(k, nest keys' v)]
  end.

Definition short_entry (url : string) : json :=
  nest ["richItemRenderer"; "content"; "shortsLockupViewModel"; "onTap";
        "innertubeCommand"; "commandMetadata"; "webCommandMetadata"; "url"]
    (JStr url).

Definition video_entry (videoId : string) : json :=
  nest ["richItemRenderer"; "content"; "videoRenderer"; "videoId"]
    (JStr videoId).

Definition marker (token : json) : json :=
  nest ["continuationItemRenderer"; "continuationEndpoint";
        "continuationCommand"; "token"] token.

Definition tab (entries : json) : json :=
  nest ["tabRenderer"; "content"; "richGridRenderer"; "contents"] entries.

(** The tree of an initial page, the entries under tab 1 and tab 2. *)
Definition initial_page (videos shorts : json) : json :=
  nest ["contents"; "twoColumnBrowseResultsRenderer"; "tabs"]
    (JArr [tab (JArr []); tab videos; tab shorts]).

Definition continuation_page (entries : json) : json :=
  JObj [("onResponseReceivedActions",
         JArr [nest ["appendContinuationItemsAction"; "continuationItems"]
                 entries])].

Definition legacy_page (entries : json) : json :=
  JArr [JNull; JObj [("response", continuation_page entries)]].

Definition build (continuation : json) : json * json * json :=
  (JStr "https://www.youtube.com/youtubei/v1/browse",
   JObj [("Content-Type", JStr "application/json")],
   JObj [("continuation", continuation)]).

(** A server that answers the request for a token with the page listed
    for it. *)
Definition serve (pages : list (string * json)) (load_more_url headers
    data : json) : result json :=
  match getitem data (KStr "continuation") with
  | Ok (JStr token) =>
      match dict_get pages token with
      | Some page => Ok page
      | None => Raise TransportError
      end
  | _ => Raise TransportError
  end.

Definition shorts (ids : list string) : list json :=
  (fun id => short_entry ("/shorts/" +:+ id)) <$> ids.

(** Spec 8: a, b, c and the token T1; then c, d and no token. *)
Definition two_pages_first : json :=
  initial_page (JArr []) (JArr (shorts ["a"; "b"; "c"] ++ [marker (JStr "T1")])).

Definition two_pages_post : json -> json -> json -> result json :=
  serve [("T1", continuation_page (JArr (shorts ["c"; "d"])))].

(** Three pages: a, b, c; then c, d, e; then f. *)
Definition three_pages_first : json :=
  initial_page (JArr []) (JArr (shorts ["a"; "b"; "c"] ++ [marker (JStr "T1")])).

Definition three_pages_post : json -> json -> json -> result json :=
  serve [("T1", continuation_page
                  (JArr (shorts ["c"; "d"; "e"] ++ [marker (JStr "T2")])));
         ("T2", continuation_page (JArr (shorts ["f"])))].

(** Two pages that repeat a reference within themselves: b, a, b and the
    token T1; then a, c, a and no token. *)
Definition repeats_first : json :=
  initial_page (JArr []) (JArr (shorts ["b"; "a"; "b"] ++ [marker (JStr "T1")])).

Definition repeats_post : json -> json -> json -> result json :=
  serve [("T1", continuation_page (JArr (shorts ["a"; "c"; "a"])))].

End Pages.

(** A page that starts like an initial page and has no tab at all. *)
Definition no_tabs_page : json :=
  Pages.nest ["contents"; "twoColumnBrowseResultsRenderer"; "tabs"] (JArr []).

(** A continuation page with a well-formed entry followed by an entry that
    has no renderer under "richItemRenderer". *)
Definition one_good_one_bad (good : json) : json :=
  JArr [good; JObj [("richItemRenderer", JObj [])]].


(** ** The path of a short *)

(** Whether the character [c] occurs in [s]. *)
Fixpoint mentions (c : Ascii.ascii) (s : string) : bool :=
  match s with
  | EmptyString => false
  | String c' r => Ascii.eqb c' c || mentions c r
  end.

(** [s.split("/")[-1]] of a [str]. *)
Definition last_segment (s : string) : string :=
  default "" (last (split "/"%char s)).

(** Where the lambda of lines 361-365 reads the url of an entry. *)
Definition short_url_path : list key :=
  [KStr "richItemRenderer"; KStr "content"; KStr "shortsLockupViewModel";
   KStr "onTap"; KStr "innertubeCommand"; KStr "commandMetadata";
   KStr "webCommandMetadata"; KStr "url"].

(** The three trees that carry the entries [entries] of a shorts page; the
    first one carries [other] under the videos tab. *)
Definition shorts_pages (other entries : json) : list json :=
  [Pages.initial_page other entries; Pages.legacy_page entries;
   Pages.continuation_page entries].

(** The same for a videos page, [other] under the shorts tab. *)
Definition videos_pages (other entries : json) : list json :=
  [Pages.initial_page entries other; Pages.legacy_page entries;
   Pages.continuation_page entries].

(** A list of entries that does not end on a continuation marker: it is
    empty, or its last entry is a dict with no "continuationItemRenderer". *)
Definition no_marker (es : list json) : Prop :=
  es = [] ∨ ∃ es0 x, es = es0 ++ [x] ∧
                     getitem x (KStr "continuationItemRenderer") = Raise KeyError.

(** A server that is down, and one that answers every request with the same
    page. *)
Definition server_down (load_more_url headers data : json) : result json :=
  Raise TransportError.

Definition always (page : json) (load_more_url headers data : json)
    : result json :=
  Ok page.

(** A serialisation that tells an initial page from a continuation page. *)
Definition dumps_tag (v : json) : string :=
  match v with
  | JObj (("contents", _) :: _) => "initial page"
  | _ => "continuation page"
  end.

(** ** The channel object and its cached pages *)

(** The attributes of a [Channel] that the properties of lines 80-145,
    212-224, 293-303 and 518-528 read and write: [None] or the text of a
    page, [None] or the data parsed from it.  [channel_uri] is
    [extract.channel_name(url)]; [_html] belongs to [Playlist], the others
    are set to [None] by lines 43-50. *)
Record channel : Type := Channel {
  channel_uri : string;
  _html : option string;
  _playlists_html : option string;
  _shorts_html : option string;
  _shorts_initial_data : option json;
  _community_html : option string;
  _featured_channels_html : option string;
  _about_html : option string;
  _about_page_initial_data : option json }.

(** Lines 29-50. *)
Definition new_channel (uri : string) : channel :=
  Channel uri None None None None None None None None.

Definition channel_url (self : channel) : string :=
  "https://www.youtube.com" +:+ channel_uri self.
Definition videos_url (self : channel) : string := channel_url self +:+ "/videos".
Definition shorts_url (self : channel) : string := channel_url self +:+ "/shorts".
Definition playlists_url (self : channel) : string :=
  channel_url self +:+ "/playlists".
Definition community_url (self : channel) : string :=
  channel_url self +:+ "/community".
Definition featured_channels_url (self : channel) : string :=
  channel_url self +:+ "/channels".
Definition about_url (self : channel) : string := channel_url self +:+ "/about".

Definition set_html (v : option string) (c : channel) : channel :=
  Channel (channel_uri c) v (_playlists_html c) (_shorts_html c)
    (_shorts_initial_data c) (_community_html c) (_featured_channels_html c)
    (_about_html c) (_about_page_initial_data c).
Definition set_playlists_html (v : option string) (c : channel) : channel :=
  Channel (channel_uri c) (_html c) v (_shorts_html c)
    (_shorts_initial_data c) (_community_html c) (_featured_channels_html c)
    (_about_html c) (_about_page_initial_data c).
Definition set_shorts_html (v : option string) (c : channel) : channel :=
  Channel (channel_uri c) (_html c) (_playlists_html c) v
    (_shorts_initial_data c) (_community_html c) (_featured_channels_html c)
    (_about_html c) (_about_page_initial_data c).
Definition set_shorts_initial_data (v : option json) (c : channel) : channel :=
  Channel (channel_uri c) (_html c) (_playlists_html c) (_shorts_html c)
    v (_community_html c) (_featured_channels_html c)
    (_about_html c) (_about_page_initial_data c).
Definition set_community_html (v : option string) (c : channel) : channel :=
  Channel (channel_uri c) (_html c) (_playlists_html c) (_shorts_html c)
    (_shorts_initial_data c) v (_featured_channels_html c)
    (_about_html c) (_about_page_initial_data c).
Definition set_featured_channels_html (v : option string) (c : channel)
    : channel :=
  Channel (channel_uri c) (_html c) (_playlists_html c) (_shorts_html c)
    (_shorts_initial_data c) (_community_html c) v
    (_about_html c) (_about_page_initial_data c).
Definition set_about_html (v : option string) (c : channel) : channel :=
  Channel (channel_uri c) (_html c) (_playlists_html c) (_shorts_html c)
    (_shorts_initial_data c) (_community_html c) (_featured_channels_html c)
    v (_about_page_initial_data c).
Definition set_about_page_initial_data (v : option json) (c : channel)
    : channel :=
  Channel (channel_uri c) (_html c) (_playlists_html c) (_shorts_html c)
    (_shorts_initial_data c) (_community_html c) (_featured_channels_html c)
    (_about_html c) v.

(** What reading a property does: the urls it asked [request.get] for, the
    object afterwards, the value returned or the exception raised. *)
Record access (A : Type) : Type :=
  Access { requested : list string; after : channel; returned : result A }.
Arguments Access {A} requested after returned.
Arguments requested {A} a.
Arguments after {A} a.
Arguments returned {A} a.

(** [if field:] on an attribute that is [None] or a [str]. *)
Definition filled (field : option string) : option string :=
  match field with
  | Some s => if String.eqb s "" then None else Some s
  | None => None
  end.

(** [if field:] on an attribute that is [None] or parsed data. *)
Definition loaded (field : option json) : option json :=
  match field with
  | Some v => if truthy v then Some v else None
  | None => None
  end.

Section Cached.

(** [pytube.request.get] and [pytube.extract.initial_data]. *)
Variable get : string -> result string.
Variable initial_data : string -> result json.

(** [self.<field> = request.get(<url>); return self.<field>]. *)
Definition fetch (url : string) (store : option string -> channel -> channel)
    (self : channel) : access string :=
  match get url with
  | Ok text => Access [url] (store (Some text) self) (Ok text)
  | Raise e => Access [url] self (Raise e)
  end.

(** Lines 80-89. *)
Definition html (self : channel) : access string :=
  match filled (_html self) with
  | Some text => Access [] self (Ok text)
  | None => fetch (videos_url self) set_html self
  end.

(** Lines 91-103. *)
Definition playlists_html (self : channel) : access string :=
  match filled (_playlists_html self) with
  | Some text => Access [] self (Ok text)
  | None => fetch (playlists_url self) set_playlists_html self
  end.

(** Lines 105-117. *)
Definition community_html (self : channel) : access string :=
  match filled (_community_html self) with
  | Some text => Access [] self (Ok text)
  | None => fetch (community_url self) set_community_html self
  end.

(** Lines 119-131. *)
Definition featured_channels_html (self : channel) : access string :=
  match filled (_featured_channels_html self) with
  | Some text => Access [] self (Ok text)
  | None => fetch (featured_channels_url self) set_featured_channels_html self
  end.

(** Lines 133-145. *)
Definition about_html (self : channel) : access string :=
  match filled (_about_html self) with
  | Some text => Access [] self (Ok text)
  | None => fetch (about_url self) set_about_html self
  end.

(** Lines 212-224. *)
Definition shorts_html (self : channel) : access string :=
  match filled (_shorts_html self) with
  | Some text => Access [] self (Ok text)
  | None => fetch (shorts_url self) set_shorts_html self
  end.

(** [self.<field> = extract.initial_data(<page>); return self.<field>],
    [page] being the property read for the argument. *)
Definition parse (page : access string)
    (store : option json -> channel -> channel) : access json :=
  match returned page with
  | Ok text =>
      match initial_data text with
      | Ok data =>
          Access (requested page) (store (Some data) (after page)) (Ok data)
      | Raise e => Access (requested page) (after page) (Raise e)
      end
  | Raise e => Access (requested page) (after page) (Raise e)
  end.

(** Lines 293-303. *)
Definition shorts_initial_data (self : channel) : access json :=
  match loaded (_shorts_initial_data self) with
  | Some data => Access [] self (Ok data)
  | None => parse (shorts_html self) set_shorts_initial_data
  end.

(** Lines 518-528 (and the same text at lines 409-419). *)
Definition about_page_initial_data (self : channel) : access json :=
  match loaded (_about_page_initial_data self) with
  | Some data => Access [] self (Ok data)
  | None => parse (about_html self) set_about_page_initial_data
  end.

(** The six page properties, each with the attribute it caches in and the
    url it asks for. *)
Definition page_properties
    : list ((channel -> access string) * (channel -> option string)
            * (channel -> string)) :=
  [(html, _html, videos_url);
   (playlists_html, _playlists_html, playlists_url);
   (community_html, _community_html, community_url);
   (featured_channels_html, _featured_channels_html, featured_channels_url);
   (about_html, _about_html, about_url);
   (shorts_html, _shorts_html, shorts_url)].

End Cached.

(** ** The getters of the channel metadata *)



Definition avatar_thumbnails_path : list key :=
  [KStr "metadata"; KStr "channelMetadataRenderer"; KStr "avatar";
   KStr "thumbnails"].

(** Lines 454-464; [None] is [JNull]. *)
Definition avatar_thumbnail (initial_data : json) : result json :=
  try_except
    (getpath initial_data (avatar_thumbnails_path ++ [KInt (-1); KStr "url"]))
    [KeyError] (fun _ => Ok JNull).

(** Lines 466-476. *)
Definition description (initial_data : json) : result json :=
  try_except
    (getpath initial_data
       [KStr "metadata"; KStr "channelMetadataRenderer"; KStr "description"])
    [KeyError] (fun _ => Ok JNull).

(** Lines 506-516. *)
Definition keywords (initial_data : json) : result json :=
  try_except
    (getpath initial_data
       [KStr "microformat"; KStr "microformatDataRenderer"; KStr "tags"])
    [KeyError] (fun _ => Ok (JArr [])).

(** The view model of the about page (lines 537, 550, 563, 576). *)
Definition about_view_model : list key :=
  [KStr "onResponseReceivedEndpoints"; KInt 0;
   KStr "showEngagementPanelEndpoint"; KStr "engagementPanel";
   KStr "engagementPanelSectionListRenderer"; KStr "content";
   KStr "sectionListRenderer"; KStr "contents"; KInt 0;
   KStr "itemSectionRenderer"; KStr "contents"; KInt 0;
   KStr "aboutChannelRenderer"; KStr "metadata"; KStr "aboutChannelViewModel"].

(** Lines 556-566. *)
Definition country (about_page_initial_data : json) : result json :=
  try_except
    (getpath about_page_initial_data (about_view_model ++ [KStr "country"]))
    [KeyError] (fun _ => Ok JNull).



Definition banner_sources_path : list key :=
  [KStr "header"; KStr "pageHeaderRenderer"; KStr "content";
   KStr "pageHeaderViewModel"; KStr "banner"; KStr "imageBannerViewModel";
   KStr "image"; KStr "sources"].

Section Thumbnails.

(** [str(v)] of a value that is not a [str], and
    [urllib.parse.unquote(v)] as it goes into ["https://" + unquote(v)]:
    Python's own. *)
Variable py_str : json -> string.
Variable unquote : json -> result string.

(** The body of the loop of lines 446-449. *)
Definition banner_source (content : json) : result string :=
  width ← getitem content (KStr "width");
  height ← getitem content (KStr "height");
  url ← getitem content (KStr "url");
  unquoted ← unquote url;
  Ok (format_field py_str width +:+ "x" +:+ format_field py_str height
      +:+ ": " +:+ "https://" +:+ unquoted).

(** Lines 436-452: the list of strings, or [None]. *)
Definition banner_thumbnail (about_page_initial_data : json) : result json :=
  try_except
    (sources ← getpath about_page_initial_data banner_sources_path;
     contents ← iterate sources;
     _banner_thumbnail ← map_result banner_source contents;
     Ok (JArr (JStr <$> _banner_thumbnail)))
    [KeyError] (fun _ => Ok JNull).

End Thumbnails.

(** ** The getters, with the read of the data

    Lines 461, 473, 513 and 563 read [self.initial_data] or
    [self.about_page_initial_data] inside the [try]: what the read raises
    meets the [except KeyError] of the getter like what the lookups raise.
    [load] is what the read gives, the data or the exception raised;
    [self.initial_data] is [Playlist]'s, inherited. *)
Module Getter.

(** Lines 454-464. *)
Definition avatar_thumbnail (load : result json) : result json :=
  try_except
    (initial_data ← load;
     getpath initial_data (avatar_thumbnails_path ++ [KInt (-1); KStr "url"]))
    [KeyError] (fun _ => Ok JNull).

(** Lines 466-476. *)
Definition description (load : result json) : result json :=
  try_except
    (initial_data ← load;
     getpath initial_data
       [KStr "metadata"; KStr "channelMetadataRenderer"; KStr "description"])
    [KeyError] (fun _ => Ok JNull).

(** Lines 506-516. *)
Definition keywords (load : result json) : result json :=
  try_except
    (initial_data ← load;
     getpath initial_data
       [KStr "microformat"; KStr "microformatDataRenderer"; KStr "tags"])
    [KeyError] (fun _ => Ok (JArr [])).

(** Lines 556-566. *)
Definition country (load : result json) : result json :=
  try_except
    (about_page_initial_data ← load;
     getpath about_page_initial_data (about_view_model ++ [KStr "country"]))
    [KeyError] (fun _ => Ok JNull).

(** [Channel.country] read on a channel: lines 556-566 over the property of
    lines 518-528. *)
Definition channel_country (get : string -> result string)
    (initial_data : string -> result json) (self : channel) : access json :=
  let data := about_page_initial_data get initial_data self in
  Access (requested data) (after data) (country (returned data)).

End Getter.

(** ** The extractors, from the body they are handed

    [_extract_videos] and [_extract_shorts] with their first lines: the
    body is parsed (lines 157 / 315) and, for the shorts, dumped to the file
    (lines 317-320) before the first [try]. *)
Module Body.

Section Parse.

Variable py_str : json -> string.
Variable dumps : json -> string.

(** [json.loads]: the document, or the exception raised on a body that is
    not JSON ([JSONDecodeError], a [ValueError]). *)
Variable loads : string -> result json.

(** The [with] block of lines 317-320: [None] when the file opens and the
    text is written, else the exception that [open] or [f.write] raises
    ([OSError], [UnicodeEncodeError]). *)
Variable dump_raises : json -> option exn.

(** Lines 157-209. *)
Definition _extract_videos (raw_json : string) : result (list string * json) :=
  initial_data ← loads raw_json;
  _extract_videos py_str initial_data.

(** Lines 315-371, the value returned or the exception raised. *)
Definition _extract_shorts (raw_json : string) : result (list string * json) :=
  initial_data ← loads raw_json;
  match dump_raises initial_data with
  | Some e => Raise e
  | None => outcome (_extract_shorts dumps initial_data)
  end.

End Parse.

End Body.

(** * Properties *)

(** ** The deduplicator *)

Lemma uniqueify_from_filter (seen : gset string) (l : list string) :
  uniqueify_from seen l = filter (fun y => y ∉ seen) (first_occurrences l).
Proof.
  revert seen; induction l as [|x l IH]; intros seen; simpl; [done|].
  rewrite filter_cons, list_filter_filter.
  case_bool_decide as Hx; rewrite IH.
  - rewrite decide_False by (intros H; apply H, Hx).
    apply list_filter_iff. intros y. split; [|tauto].
    intros Hy. split; [done|]. intros ->. done.
  - rewrite decide_True by done. f_equal.
    apply list_filter_iff. intros y. set_solver.
Qed.

Lemma uniqueify_first_occurrences (l : list string) :
  uniqueify l = first_occurrences l.
Proof.
  unfold uniqueify. rewrite uniqueify_from_filter.
  induction (first_occurrences l) as [|y r IH]; [done|].
  rewrite filter_cons, decide_True by set_solver. by f_equal.
Qed.

Lemma first_occurrences_elem (l : list string) (x : string) :
  x ∈ first_occurrences l ↔ x ∈ l.
Proof.
  induction l as [|y l IH]; simpl; [done|].
  rewrite !elem_of_cons, list_elem_of_filter, IH.
  destruct (decide (x = y)); naive_solver.
Qed.

Lemma first_occurrences_NoDup (l : list string) : NoDup (first_occurrences l).
Proof.
  induction l as [|y l IH]; simpl; constructor.
  - rewrite list_elem_of_filter. naive_solver.
  - by apply NoDup_filter.
Qed.

Lemma first_occurrences_sublist (l : list string) :
  sublist (first_occurrences l) l.
Proof.
  induction l as [|y l IH]; simpl; [done|].
  apply sublist_skip. etrans; [apply sublist_filter|done].
Qed.

Lemma first_occurrences_id (l : list string) :
  NoDup l → first_occurrences l = l.
Proof.
  induction 1 as [|y l Hy Hl IH]; simpl; [done|].
  rewrite IH. f_equal. clear -Hy.
  induction l as [|z l IHl]; [done|].
  apply not_elem_of_cons in Hy as [Hne Hy].
  rewrite filter_cons, decide_True by congruence.
  f_equal. by apply IHl.
Qed.

Lemma uniqueify_NoDup (l : list string) : NoDup (uniqueify l).
Proof. rewrite uniqueify_first_occurrences. apply first_occurrences_NoDup. Qed.

Lemma uniqueify_elem (l : list string) (x : string) : x ∈ uniqueify l ↔ x ∈ l.
Proof. rewrite uniqueify_first_occurrences. apply first_occurrences_elem. Qed.

Lemma uniqueify_id (l : list string) : NoDup l → uniqueify l = l.
Proof. rewrite uniqueify_first_occurrences. apply first_occurrences_id. Qed.

(** C8: [uniqueify] returns the distinct elements of its input in order of
    first occurrence: its result has no duplicate, has exactly the elements
    of the input, is a subsequence of the input, starts with the head of the
    input followed by the distinct elements of the tail that differ from it
    (that is [first_occurrences]), and applying it to its own output changes
    nothing. *)
Theorem uniqueify_stable_idempotent (L : list string) :
  uniqueify L = first_occurrences L ∧
  NoDup (uniqueify L) ∧
  (∀ x, x ∈ uniqueify L ↔ x ∈ L) ∧
  sublist (uniqueify L) L ∧
  uniqueify (uniqueify L) = uniqueify L.
Proof.
  split_and!.
  - apply uniqueify_first_occurrences.
  - apply uniqueify_NoDup.
  - intros x. apply uniqueify_elem.
  - rewrite uniqueify_first_occurrences. apply first_occurrences_sublist.
  - apply uniqueify_id, uniqueify_NoDup.
Qed.

(** ** The shape resolver *)

Lemma list_getitem_raises {A} (l : list A) (i : Z) (e : exn) :
  list_getitem l i = Raise e → e = IndexError.
Proof.
  unfold list_getitem. destruct (seq_index _ _); [destruct (l !! _)|]; congruence.
Qed.

Lemma getitem_raises (v : json) (k : key) (e : exn) :
  getitem v k = Raise e → e ∈ [KeyError; IndexError; TypeError].
Proof.
  destruct v, k; simpl; try (intros [= <-]; set_solver).
  - destruct (list_getitem _ _) eqn:E; simpl; [done|].
    intros [= <-]. apply list_getitem_raises in E as ->. set_solver.
  - intros E. apply list_getitem_raises in E as ->. set_solver.
  - destruct (dict_get _ _); intros [= <-]. set_solver.
Qed.

Lemma getpath_raises (path : list key) (v : json) (e : exn) :
  getpath v path = Raise e → e ∈ [KeyError; IndexError; TypeError].
Proof.
  revert v; induction path as [|k path IH]; intros v; simpl; [done|].
  destruct (getitem v k) eqn:E; simpl; [apply IH|].
  intros [= <-]. by apply getitem_raises in E.
Qed.

Lemma try_lookup_fallthrough (v : json) (path : list key)
    (handler : exn → result (option json)) :
  try_except (Some <$> getpath v path) [KeyError; IndexError; TypeError] handler
  = match getpath v path with
    | Ok entries => Ok (Some entries)
    | Raise e => handler e
    end.
Proof.
  destruct (getpath v path) eqn:E; simpl; [done|].
  apply getpath_raises in E. by rewrite bool_decide_eq_true_2.
Qed.

Lemma resolve_first_match (tab : Z) (raw : json) :
  resolve tab raw = Ok (first_match (shapes tab) raw).
Proof.
  unfold resolve, shapes, first_match.
  rewrite !try_lookup_fallthrough.
  by repeat destruct (getpath raw _).
Qed.

Lemma _extract_shorts_trace (dumps : json → string) (raw : json) :
  trace (_extract_shorts dumps raw)
  = [WriteFile "shorts_initial_data.json" (dumps raw)].
Proof.
  unfold _extract_shorts. rewrite resolve_first_match.
  destruct (first_match _ _) as [videos|]; simpl; [|done].
  by destruct (split_continuation videos) as [[v c]|].
Qed.

Lemma _extract_shorts_outcome (dumps : json → string) (raw : json) :
  outcome (_extract_shorts dumps raw)
  = match first_match (shapes 2) raw with
    | None => Ok ([], JNull)
    | Some videos =>
        '(videos, continuation) ← split_continuation videos;
        references short_path videos continuation
    end.
Proof.
  unfold _extract_shorts. rewrite resolve_first_match.
  destruct (first_match _ _) as [videos|]; simpl; [|done].
  by destruct (split_continuation videos) as [[v c]|].
Qed.

Lemma _extract_videos_outcome (py_str : json → string) (raw : json) :
  _extract_videos py_str raw
  = match first_match (shapes 1) raw with
    | None => Ok ([], JNull)
    | Some videos =>
        '(videos, continuation) ← split_continuation videos;
        references (video_path py_str) videos continuation
    end.
Proof. unfold _extract_videos. by rewrite resolve_first_match. Qed.

(** C5: for every raw document the resolver tries the initial-page shape,
    then the legacy continuation shape, then the current continuation shape;
    a shape whose lookup fails, for whatever reason, gives way to the next
    one and the resolver itself never raises; when the three of them fail
    both extractors return an empty batch and no continuation token. *)
Theorem resolver_falls_through (py_str dumps : json → string) (raw : json) :
  resolve 1 raw = Ok (first_match (shapes 1) raw) ∧
  resolve 2 raw = Ok (first_match (shapes 2) raw) ∧
  (first_match (shapes 1) raw = None →
   _extract_videos py_str raw = Ok ([], JNull)) ∧
  (first_match (shapes 2) raw = None →
   outcome (_extract_shorts dumps raw) = Ok ([], JNull)).
Proof.
  split_and!; try apply resolve_first_match.
  - intros H. by rewrite _extract_videos_outcome, H.
  - intros H. by rewrite _extract_shorts_outcome, H.
Qed.

Lemma resolver_falls_through_witness :
  first_match (shapes 1) no_tabs_page = None ∧
  first_match (shapes 2) no_tabs_page = None ∧
  _extract_videos (fun _ => "") no_tabs_page = Ok ([], JNull) ∧
  outcome (_extract_shorts (fun _ => "") no_tabs_page) = Ok ([], JNull).
Proof.
  destruct (resolver_falls_through (fun _ => "") (fun _ => "") no_tabs_page)
    as (_ & _ & Hv & Hs).
  split_and!; [reflexivity | reflexivity | apply Hv | apply Hs]; reflexivity.
Defined.

(** C10: every call of [_extract_shorts] writes the dump of the whole parsed
    document to "shorts_initial_data.json", and nothing else, whatever the
    call then returns or raises: the file holds that dump afterwards
    whatever it held before, also for a document no shape matches. *)
Theorem _extract_shorts_writes_dump (dumps : json → string) (raw : json)
    (fs : string → option string) :
  trace (_extract_shorts dumps raw)
    = [WriteFile "shorts_initial_data.json" (dumps raw)] ∧
  files_after (trace (_extract_shorts dumps raw)) fs "shorts_initial_data.json"
    = Some (dumps raw) ∧
  _extract_shorts dumps JNull
    = IO [WriteFile "shorts_initial_data.json" (dumps JNull)] (Ok ([], JNull)).
Proof.
  rewrite _extract_shorts_trace. by split_and!.
Qed.

(** ** The continuation marker *)

Lemma list_getitem_last {A} (l : list A) (x : A) :
  list_getitem (l ++ [x]) (-1) = Ok x.
Proof.
  unfold list_getitem, seq_index. rewrite length_app. simpl.
  replace (-1 <? 0)%Z with true by done.
  assert ((0 <=? -1 + Z.of_nat (length l + 1))%Z = true) as ->
    by (apply Z.leb_le; lia).
  assert ((-1 + Z.of_nat (length l + 1) <? Z.of_nat (length l + 1))%Z = true)
    as -> by (apply Z.ltb_lt; lia).
  simpl. replace (Z.to_nat _) with (length l) by lia.
  by rewrite list_lookup_middle.
Qed.

(** The trailing entry has the marker shape: its token is returned with all
    the entries but the last, in their order. *)
Lemma split_continuation_marker (l : list json) (x token : json) :
  getpath x marker_path = Ok token →
  split_continuation (JArr (l ++ [x])) = Ok (JArr l, token).
Proof.
  intros H. unfold split_continuation.
  replace token_path with (KInt (-1) :: marker_path) by done.
  cbn [getpath getitem]. rewrite list_getitem_last. cbn [mbind result_bind].
  rewrite H. cbn. by rewrite removelast_last.
Qed.

(** The lookup of the token fails on a missing key or an empty list: all
    the entries are returned and no token. *)
Lemma split_continuation_no_marker (videos : json) (e : exn) :
  getpath videos token_path = Raise e →
  e ∈ [KeyError; IndexError] →
  split_continuation videos = Ok (videos, JNull).
Proof.
  intros H He. unfold split_continuation. rewrite H. cbn.
  by rewrite bool_decide_eq_true_2.
Qed.

(** The lookup of the token fails on a node that is not a dict: the
    [TypeError] leaves the block. *)
Lemma split_continuation_raises (videos : json) :
  getpath videos token_path = Raise TypeError →
  split_continuation videos = Raise TypeError.
Proof. intros H. unfold split_continuation. by rewrite H. Qed.

(** C4 (the code at the failing input): a page whose trailing entry carries
    "continuationItemRenderer": null.  Looking the token up fails with
    [TypeError], which the [except (KeyError, IndexError)] of lines 190 / 351
    lets through: the continuation block, and with it both extractors, raise
    instead of returning the entries with no token. *)
Theorem split_continuation_type_error (py_str dumps : json → string) :
  let trailing := JObj [("continuationItemRenderer", JNull)] in
  split_continuation (JArr [Pages.short_entry "/shorts/a"; trailing])
    = Raise TypeError ∧
  outcome (_extract_shorts dumps
    (Pages.continuation_page (JArr [Pages.short_entry "/shorts/a"; trailing])))
    = Raise TypeError ∧
  _extract_videos py_str
    (Pages.continuation_page (JArr [Pages.video_entry "a"; trailing]))
    = Raise TypeError.
Proof. by split_and!. Qed.

(** ** The per-entry map *)

Lemma map_result_raise {A B} (f : A → result B) (good : list A) (bad : A)
    (rest : list A) (e : exn) :
  Forall (fun x => ∃ r, f x = Ok r) good →
  f bad = Raise e →
  map_result f (good ++ bad :: rest) = Raise e.
Proof.
  intros Hgood Hbad. induction Hgood as [|x good [r Hx] _ IH]; simpl.
  - by rewrite Hbad.
  - by rewrite Hx, IH.
Qed.

Lemma map_result_ok {A B} (f : A → result B) (xs : list A) (ys : list B) :
  map_result f xs = Ok ys → Forall2 (fun x y => f x = Ok y) xs ys.
Proof.
  revert ys; induction xs as [|x xs IH]; intros ys; simpl.
  - intros [= <-]. constructor.
  - destruct (f x) as [y|] eqn:Hx; simpl; [|done].
    destruct (map_result f xs) as [ys'|]; simpl; [|done].
    intros [= <-]. constructor; [done|]. by apply IH.
Qed.

Lemma references_raise (f : json → result string) (good : list json)
    (bad : json) (rest : list json) (c : json) (e : exn) :
  Forall (fun x => ∃ r, f x = Ok r) good →
  f bad = Raise e →
  references f (JArr (good ++ bad :: rest)) c = Raise e.
Proof.
  intros Hgood Hbad. unfold references. simpl.
  by rewrite (map_result_raise f good bad rest e).
Qed.

(** C3 (amended): an entry that does not match the per-item shape is not
    dropped.  When the entries left after the continuation marker are some
    well-formed entries, then an entry whose mapping raises, then any
    entries, the extractor returns no batch: it raises the error of that
    entry.  So for [_extract_shorts], and so for [_extract_videos]. *)
Theorem malformed_entry_raises (py_str dumps : json → string)
    (raw videos c : json) (good : list json) (bad : json) (rest : list json)
    (e : exn) :
  (resolve 2 raw = Ok (Some videos) →
   split_continuation videos = Ok (JArr (good ++ bad :: rest), c) →
   Forall (fun x => ∃ r, short_path x = Ok r) good →
   short_path bad = Raise e →
   outcome (_extract_shorts dumps raw) = Raise e) ∧
  (resolve 1 raw = Ok (Some videos) →
   split_continuation videos = Ok (JArr (good ++ bad :: rest), c) →
   Forall (fun x => ∃ r, video_path py_str x = Ok r) good →
   video_path py_str bad = Raise e →
   _extract_videos py_str raw = Raise e).
Proof.
  split; intros Hres Hsplit Hgood Hbad.
  - assert (first_match (shapes 2) raw = Some videos) as Hfm
      by (pose proof (resolve_first_match 2 raw); congruence).
    rewrite _extract_shorts_outcome, Hfm, Hsplit. simpl.
    by apply references_raise.
  - assert (first_match (shapes 1) raw = Some videos) as Hfm
      by (pose proof (resolve_first_match 1 raw); congruence).
    rewrite _extract_videos_outcome, Hfm, Hsplit. simpl.
    by apply references_raise.
Qed.

Lemma malformed_entry_raises_witness :
  outcome (_extract_shorts (fun _ => "")
    (Pages.continuation_page (one_good_one_bad (Pages.short_entry "/shorts/a"))))
    = Raise KeyError ∧
  _extract_videos (fun _ => "")
    (Pages.continuation_page (one_good_one_bad (Pages.video_entry "a")))
    = Raise KeyError.
Proof.
  split.
  - apply (proj1 (malformed_entry_raises (fun _ => "") (fun _ => "")
             (Pages.continuation_page
                (one_good_one_bad (Pages.short_entry "/shorts/a")))
             (one_good_one_bad (Pages.short_entry "/shorts/a")) JNull
             [Pages.short_entry "/shorts/a"]
             (JObj [("richItemRenderer", JObj [])]) [] KeyError)).
    + reflexivity.
    + reflexivity.
    + constructor; [eexists; reflexivity | constructor].
    + reflexivity.
  - apply (proj2 (malformed_entry_raises (fun _ => "") (fun _ => "")
             (Pages.continuation_page
                (one_good_one_bad (Pages.video_entry "a")))
             (one_good_one_bad (Pages.video_entry "a")) JNull
             [Pages.video_entry "a"]
             (JObj [("richItemRenderer", JObj [])]) [] KeyError)).
    + reflexivity.
    + reflexivity.
    + constructor; [eexists; reflexivity | constructor].
    + reflexivity.
Defined.

(** C3 (as stated, refuted): with one well-formed and one malformed entry
    neither extractor returns one reference; both raise [KeyError]. *)
Lemma malformed_entry_not_dropped :
  let shorts := Pages.continuation_page
                  (one_good_one_bad (Pages.short_entry "/shorts/a")) in
  let videos := Pages.continuation_page
                  (one_good_one_bad (Pages.video_entry "a")) in
  outcome (_extract_shorts (fun _ => "") shorts) = Raise KeyError ∧
  _extract_videos (fun _ => "") videos = Raise KeyError ∧
  ¬ (∃ ref c, outcome (_extract_shorts (fun _ => "") shorts) = Ok ([ref], c)) ∧
  ¬ (∃ ref c, _extract_videos (fun _ => "") videos = Ok ([ref], c)).
Proof.
  split_and!; [reflexivity | reflexivity | |]; by intros (ref & c & H).
Qed.

(** ** The page generator *)

Lemma io_eta {A} (m : io A) : m = IO (trace m) (outcome m).
Proof. by destruct m. Qed.

Lemma index_lookup (xs : list string) (x : string) (i : nat) :
  NoDup xs → xs !! i = Some x → index xs x = Ok i.
Proof.
  intros Hnd. revert i. induction Hnd as [|y ys Hy _ IH]; intros i; [done|].
  destruct i as [|i]; simpl.
  - intros [= ->]. by rewrite String.eqb_refl.
  - intros Hi. destruct (String.eqb_spec y x) as [->|_].
    + apply list_elem_of_lookup_2 in Hi. done.
    + by rewrite (IH i Hi).
Qed.

Lemma short_path_prefix (x : json) (r : string) :
  short_path x = Ok r → ∃ rest, r = "/shorts/" +:+ rest.
Proof.
  unfold short_path. destruct (getpath x _) as [url|]; simpl; [|done].
  destruct (split_slash url) as [parts|]; simpl; [|done].
  destruct (list_getitem parts _) as [last|]; simpl; [|done].
  intros [= <-]. by eexists.
Qed.

Lemma video_path_prefix (py_str : json → string) (x : json) (r : string) :
  video_path py_str x = Ok r → ∃ rest, r = "/watch?v=" +:+ rest.
Proof.
  unfold video_path. destruct (getpath x _) as [videoId|]; simpl; [|done].
  intros [= <-]. by eexists.
Qed.

Lemma references_ok (f : json → result string) (prefix : string)
    (videos c : json) (refs : list string) (c' : json) :
  (∀ x r, f x = Ok r → ∃ rest, r = prefix +:+ rest) →
  references f videos c = Ok (refs, c') →
  NoDup refs ∧ Forall (fun r => ∃ rest, r = prefix +:+ rest) refs.
Proof.
  intros Hf. unfold references.
  destruct (iterate videos) as [items|]; simpl; [|done].
  destruct (map_result f items) as [paths|] eqn:Hmap; simpl; [|done].
  intros [= <- _]. split; [apply uniqueify_NoDup|].
  apply Forall_forall. intros r Hr. rewrite uniqueify_elem in Hr.
  apply map_result_ok in Hmap.
  destruct (proj1 (list_elem_of_lookup _ _) Hr) as [i Hi].
  destruct (Forall2_lookup_r _ _ _ _ _ Hmap Hi) as (x & _ & Hx).
  by apply (Hf x).
Qed.

Lemma _extract_shorts_ok (dumps : json → string) (raw : json)
    (refs : list string) (c : json) :
  outcome (_extract_shorts dumps raw) = Ok (refs, c) →
  NoDup refs ∧ Forall (fun r => ∃ rest, r = "/shorts/" +:+ rest) refs.
Proof.
  rewrite _extract_shorts_outcome.
  destruct (first_match _ _) as [videos|].
  - destruct (split_continuation videos) as [[v c0]|]; simpl; [|done].
    apply references_ok, short_path_prefix.
  - intros [= <- _]. split; constructor.
Qed.

Lemma _extract_videos_ok (py_str : json → string) (raw : json)
    (refs : list string) (c : json) :
  _extract_videos py_str raw = Ok (refs, c) →
  NoDup refs ∧ Forall (fun r => ∃ rest, r = "/watch?v=" +:+ rest) refs.
Proof.
  rewrite _extract_videos_outcome.
  destruct (first_match _ _) as [videos|].
  - destruct (split_continuation videos) as [[v c0]|]; simpl; [|done].
    apply references_ok, video_path_prefix.
  - intros [= <- _]. split; constructor.
Qed.

Lemma _extract_shorts_first_occurrences (dumps : json → string) (raw : json)
    (refs : list string) (c : json) :
  outcome (_extract_shorts dumps raw) = Ok (refs, c) →
  ∃ paths, entry_references raw = Ok paths ∧ refs = first_occurrences paths.
Proof.
  rewrite _extract_shorts_outcome. unfold entry_references.
  rewrite resolve_first_match.
  destruct (first_match (shapes 2) raw) as [videos|]; simpl.
  - destruct (split_continuation videos) as [[v c0]|]; simpl; [|done].
    unfold references. destruct (iterate v) as [items|]; simpl; [|done].
    destruct (map_result short_path items) as [paths|]; simpl; [|done].
    intros [= <- _]. exists paths. split; [done|].
    apply uniqueify_first_occurrences.
  - intros [= <- _]. by exists [].
Qed.

Lemma count_NoDup (b : list string) (x : string) :
  NoDup b →
  length (filter (fun y => y = x) b) = if decide (x ∈ b) then 1 else 0.
Proof.
  induction 1 as [|y b Hy _ IH]; [done|].
  rewrite filter_cons. destruct (decide (y = x)) as [->|Hne]; simpl.
  - rewrite decide_True by left. rewrite IH, decide_False; done.
  - rewrite IH. destruct (decide (x ∈ b)) as [Hx|Hx].
    + rewrite decide_True; [done|by right].
    + rewrite decide_False; [done|]. rewrite elem_of_cons. naive_solver.
Qed.

Lemma count_concat_NoDup (bs : list (list string)) (x : string) :
  Forall NoDup bs →
  length (filter (fun y => y = x) (concat bs))
  = length (filter (fun b => x ∈ b) bs).
Proof.
  induction 1 as [|b bs Hb _ IH]; [done|].
  simpl. rewrite filter_app, length_app, IH, (count_NoDup b x Hb), filter_cons.
  by destruct (decide (x ∈ b)).
Qed.

Section WalkerFacts.

Variable dumps : json → string.
Variable build : json → json * json * json.
Variable post : json → json → json → result json.
Variable first_page : json.

Abbreviation next' := (next dumps build post first_page).
Abbreviation pull' := (pull dumps build post first_page).
Abbreviation paginate := (_paginate_shorts dumps build post first_page).
Abbreviation chain' := (chain dumps build post).
Abbreviation dump raw := (WriteFile "shorts_initial_data.json" (dumps raw)).

Lemma scan_page_not_supplied (prefix : string) (until : option string)
    (refs : list string) (c : json) :
  supplied until = false →
  scan_page prefix until refs c = Ok (refs, AtPageYield c).
Proof. intros H. unfold scan_page. by rewrite H. Qed.

Lemma scan_page_found (prefix id : string) (refs : list string) (c : json)
    (i : nat) :
  id ≠ "" → NoDup refs → refs !! i = Some (prefix +:+ id) →
  scan_page prefix (Some id) refs c = Ok (take i refs, AtTrimmedYield).
Proof.
  intros Hid Hnd Hi. unfold scan_page, supplied.
  destruct (String.eqb_spec id "") as [|_]; [done|]. simpl.
  by rewrite (index_lookup refs _ i).
Qed.

Lemma scan_page_cases (prefix : string) (until : option string)
    (refs : list string) (c : json) (b : list string) (st : gen_state) :
  scan_page prefix until refs c = Ok (b, st) →
  (b = refs ∧ st = AtPageYield c) ∨ (∃ i, b = take i refs ∧ st = AtTrimmedYield).
Proof.
  unfold scan_page. destruct (supplied until); [|intros [= <- <-]; by left].
  destruct (index refs _) as [i|e]; simpl.
  - intros [= <- <-]. right. by exists i.
  - destruct (bool_decide _); [|done]. intros [= <- <-]. by left.
Qed.

Lemma next_created (until : option string) (refs : list string) (c : json)
    (b : list string) (st : gen_state) :
  outcome (_extract_shorts dumps first_page) = Ok (refs, c) →
  scan_page "/shorts/" until refs c = Ok (b, st) →
  next' until Created = IO [dump first_page] (Ok (Some (b, st))).
Proof.
  intros Hex Hscan. unfold next.
  rewrite (io_eta (_extract_shorts dumps first_page)), _extract_shorts_trace, Hex.
  cbn. by rewrite Hscan.
Qed.

Lemma next_page (until : option string) (c u h d req : json)
    (refs : list string) (c' : json) (b : list string) (st : gen_state) :
  truthy c = true → build c = (u, h, d) →
  truthy u && truthy h && truthy d = true →
  post u h d = Ok req →
  outcome (_extract_shorts dumps req) = Ok (refs, c') →
  scan_page "/shorts/=" until refs c' = Ok (b, st) →
  next' until (AtPageYield c) = IO [Post u h d; dump req] (Ok (Some (b, st))).
Proof.
  intros Hc Hb Ht Hp Hex Hscan. unfold next, load_more.
  rewrite Hc, Hb, Ht, Hp. cbn [mbind io_bind emit pure_call outcome trace].
  rewrite (io_eta (_extract_shorts dumps req)), _extract_shorts_trace, Hex.
  cbn. by rewrite Hscan.
Qed.

Lemma next_page_stop (until : option string) (c : json) :
  truthy c = false → next' until (AtPageYield c) = IO [] (Ok None).
Proof. intros Hc. unfold next, load_more. by rewrite Hc. Qed.

Lemma pull_yield (until : option string) (n : nat) (st st' : gen_state)
    (tr : list event) (b : list string) :
  next' until st = IO tr (Ok (Some (b, st'))) →
  pull' until (S n) st
  = IO (tr ++ Yield b :: trace (pull' until n st')) (outcome (pull' until n st')).
Proof.
  intros H. cbn [pull]. rewrite H. cbn.
  by destruct (outcome (pull' until n st')).
Qed.

Lemma pull_stop (until : option string) (n : nat) (st : gen_state)
    (tr : list event) :
  next' until st = IO tr (Ok None) → pull' until (S n) st = IO tr (Ok Closed).
Proof. intros H. cbn [pull]. rewrite H. cbn. by rewrite app_nil_r. Qed.

Lemma pull_raise (until : option string) (n : nat) (st : gen_state)
    (tr : list event) (e : exn) :
  next' until st = IO tr (Raise e) → pull' until (S n) st = IO tr (Raise e).
Proof. intros H. cbn [pull]. by rewrite H. Qed.

Lemma batches_yield (pre tr : list event) (b : list string) :
  batches (pre ++ Yield b :: tr) = batches pre ++ b :: batches tr.
Proof. unfold batches. by rewrite omap_app. Qed.

Lemma posts_yield (pre tr : list event) (b : list string) :
  posts (pre ++ Yield b :: tr) = posts pre ++ posts tr.
Proof. unfold posts. by rewrite omap_app. Qed.

Lemma chain_length (page : json) (bs : list (list string))
    (rs : list (json * json * json)) :
  chain' page bs rs → length bs = S (length rs).
Proof. induction 1; simpl; congruence. Qed.

(** The pages of a chain are its head and the answers to its requests, in
    order; the batch of a page is the list of its entry references with
    every repeat after the first dropped. *)
Lemma chain_pages (page : json) (bs : list (list string))
    (rs : list (json * json * json)) :
  chain' page bs rs →
  ∃ fetched : list json,
    Forall2 (fun '(u, h, d) answer => post u h d = Ok answer) rs fetched ∧
    Forall2 (fun page batch =>
               ∃ paths, entry_references page = Ok paths ∧
                        batch = first_occurrences paths)
      (page :: fetched) bs.
Proof.
  induction 1 as [page refs c Hex _
    |page refs c u h d req bs rs Hex _ _ _ Hpost _ (fetched & Hreq & Hbs)].
  - exists []. split; [constructor|].
    constructor; [by eapply _extract_shorts_first_occurrences|constructor].
  - exists (req :: fetched). split; [by constructor|].
    constructor; [by eapply _extract_shorts_first_occurrences|done].
Qed.

Lemma chain_NoDup (page : json) (bs : list (list string))
    (rs : list (json * json * json)) :
  chain' page bs rs → Forall NoDup bs.
Proof.
  induction 1 as [page refs c Hex _|page refs c u h d req bs rs Hex _ _ _ _ _ IH];
    constructor; try done; by apply _extract_shorts_ok in Hex as [? _].
Qed.

(** Resuming after a page whose token asks for [page], the head of a chain. *)
Lemma pull_chain_tail (until : option string) (page : json)
    (bs : list (list string)) (rs : list (json * json * json)) :
  supplied until = false → chain' page bs rs →
  ∀ c u h d n,
    truthy c = true → build c = (u, h, d) →
    truthy u && truthy h && truthy d = true → post u h d = Ok page →
    length bs < n →
    batches (trace (pull' until n (AtPageYield c))) = bs ∧
    posts (trace (pull' until n (AtPageYield c))) = (u, h, d) :: rs ∧
    outcome (pull' until n (AtPageYield c)) = Ok Closed.
Proof.
  intros Hu. induction 1 as [page refs c0 Hex Hc0
    |page refs c0 u0 h0 d0 req bs rs Hex Hc0 Hb0 Ht0 Hp0 _ IH];
    intros c u h d n Hc Hb Ht Hp Hn; simpl in Hn.
  - destruct n as [|[|n]]; [lia..|].
    rewrite (pull_yield _ _ _ _ _ _
               (next_page until c u h d page refs c0 _ _ Hc Hb Ht Hp Hex
                  (scan_page_not_supplied _ _ _ _ Hu))).
    by rewrite (pull_stop _ _ _ _ (next_page_stop until c0 Hc0)).
  - destruct n as [|n]; [lia|].
    rewrite (pull_yield _ _ _ _ _ _
               (next_page until c u h d page refs c0 _ _ Hc Hb Ht Hp Hex
                  (scan_page_not_supplied _ _ _ _ Hu))).
    destruct (IH c0 u0 h0 d0 n Hc0 Hb0 Ht0 Hp0 ltac:(lia)) as (Hbs & Hrs & Hout).
    cbn [trace outcome]. by rewrite batches_yield, posts_yield, Hbs, Hrs, Hout.
Qed.

(** Draining the generator over a chain that starts at the first page. *)
Lemma pull_chain (until : option string) (bs : list (list string))
    (rs : list (json * json * json)) (n : nat) :
  supplied until = false → chain' first_page bs rs → length bs < n →
  batches (trace (paginate until n)) = bs ∧
  posts (trace (paginate until n)) = rs ∧
  outcome (paginate until n) = Ok Closed.
Proof.
  intros Hu Hchain Hn. unfold _paginate_shorts.
  inversion Hchain as [page refs c Hex Hc
    |page refs c u h d req bs' rs' Hex Hc Hb Ht Hp Hrest]; subst; simpl in Hn.
  - destruct n as [|[|n]]; [lia..|].
    rewrite (pull_yield _ _ _ _ _ _
               (next_created until refs c _ _ Hex
                  (scan_page_not_supplied _ _ _ _ Hu))).
    by rewrite (pull_stop _ _ _ _ (next_page_stop until c Hc)).
  - destruct n as [|n]; [lia|].
    rewrite (pull_yield _ _ _ _ _ _
               (next_created until refs c _ _ Hex
                  (scan_page_not_supplied _ _ _ _ Hu))).
    destruct (pull_chain_tail until req bs' rs' Hu Hrest c u h d n Hc Hb Ht Hp
                ltac:(lia)) as (Hbs & Hrs & Hout).
    cbn [trace outcome]. by rewrite batches_yield, posts_yield, Hbs, Hrs, Hout.
Qed.

Lemma index_raises (xs : list string) (x : string) (e : exn) :
  index xs x = Raise e → e = ValueError.
Proof.
  induction xs as [|y ys IH]; simpl; [congruence|].
  destruct (String.eqb y x); [done|].
  destruct (index ys x); simpl; [done|]. intros [= <-]. by apply IH.
Qed.

Lemma scan_page_total (prefix : string) (until : option string)
    (refs : list string) (c : json) :
  ∃ b st, scan_page prefix until refs c = Ok (b, st) ∧
          (st = AtPageYield c ∨ st = AtTrimmedYield).
Proof.
  unfold scan_page. destruct (supplied until); [|by eauto].
  destruct (index refs _) as [i|e] eqn:Hi; simpl; [by eauto|].
  apply index_raises in Hi as ->. simpl. by eauto.
Qed.

Lemma next_trimmed (until : option string) :
  next' until AtTrimmedYield = IO [] (Ok None).
Proof. done. Qed.

(** With or without a boundary, a walk over a chain ends within the chain. *)
Lemma pull_chain_tail_bounded (until : option string) (page : json)
    (bs : list (list string)) (rs : list (json * json * json)) :
  chain' page bs rs →
  ∀ c u h d n,
    truthy c = true → build c = (u, h, d) →
    truthy u && truthy h && truthy d = true → post u h d = Ok page →
    length bs < n →
    outcome (pull' until n (AtPageYield c)) = Ok Closed ∧
    (length (batches (trace (pull' until n (AtPageYield c)))) ≤ length bs)%nat ∧
    posts (trace (pull' until n (AtPageYield c))) `prefix_of` (u, h, d) :: rs.
Proof.
  induction 1 as [page refs c0 Hex Hc0
    |page refs c0 u0 h0 d0 req bs rs Hex Hc0 Hb0 Ht0 Hp0 Hrest IH];
    intros c u h d n Hc Hb Ht Hp Hn; simpl in Hn.
  - destruct n as [|[|n]]; [lia..|].
    destruct (scan_page_total "/shorts/=" until refs c0)
      as (b & st & Hscan & [->| ->]).
    + rewrite (pull_yield _ _ _ _ _ _
                 (next_page until c u h d page refs c0 _ _ Hc Hb Ht Hp Hex Hscan)).
      by rewrite (pull_stop _ _ _ _ (next_page_stop until c0 Hc0)).
    + rewrite (pull_yield _ _ _ _ _ _
                 (next_page until c u h d page refs c0 _ _ Hc Hb Ht Hp Hex Hscan)).
      by rewrite (pull_stop _ _ _ _ (next_trimmed until)).
  - destruct n as [|n]; [lia|].
    destruct (scan_page_total "/shorts/=" until refs c0)
      as (b & st & Hscan & [->| ->]).
    + rewrite (pull_yield _ _ _ _ _ _
                 (next_page until c u h d page refs c0 _ _ Hc Hb Ht Hp Hex Hscan)).
      destruct (IH c0 u0 h0 d0 n Hc0 Hb0 Ht0 Hp0 ltac:(lia)) as (Hout & Hbs & Hrs).
      cbn [trace outcome]. rewrite batches_yield, posts_yield.
      split_and!; [done|simpl; lia|]. by apply prefix_cons.
    + pose proof (chain_length _ _ _ Hrest).
      destruct n as [|n]; [lia|].
      rewrite (pull_yield _ _ _ _ _ _
                 (next_page until c u h d page refs c0 _ _ Hc Hb Ht Hp Hex Hscan)).
      rewrite (pull_stop _ _ _ _ (next_trimmed until)).
      cbn [trace outcome]. rewrite batches_yield, posts_yield.
      split_and!; [done|simpl; lia|]. apply prefix_cons, prefix_nil.
Qed.

Lemma pull_chain_bounded (until : option string) (bs : list (list string))
    (rs : list (json * json * json)) (n : nat) :
  chain' first_page bs rs → length bs < n →
  outcome (paginate until n) = Ok Closed ∧
  (length (batches (trace (paginate until n))) ≤ length bs)%nat ∧
  posts (trace (paginate until n)) `prefix_of` rs.
Proof.
  intros Hchain Hn. unfold _paginate_shorts.
  inversion Hchain as [page refs c Hex Hc
    |page refs c u h d req bs' rs' Hex Hc Hb Ht Hp Hrest]; subst; simpl in Hn.
  - destruct n as [|[|n]]; [lia..|].
    destruct (scan_page_total "/shorts/" until refs c)
      as (b & st & Hscan & [->| ->]);
      rewrite (pull_yield _ _ _ _ _ _ (next_created until refs c _ _ Hex Hscan)).
    + by rewrite (pull_stop _ _ _ _ (next_page_stop until c Hc)).
    + by rewrite (pull_stop _ _ _ _ (next_trimmed until)).
  - pose proof (chain_length _ _ _ Hrest).
    destruct n as [|n]; [lia|].
    destruct (scan_page_total "/shorts/" until refs c)
      as (b & st & Hscan & [->| ->]);
      rewrite (pull_yield _ _ _ _ _ _ (next_created until refs c _ _ Hex Hscan)).
    + destruct (pull_chain_tail_bounded until req bs' rs' Hrest c u h d n
                  Hc Hb Ht Hp ltac:(lia)) as (Hout & Hbs & Hrs).
      cbn [trace outcome]. rewrite batches_yield, posts_yield.
      split_and!; [done|simpl; lia|done].
    + destruct n as [|n]; [lia|].
      rewrite (pull_stop _ _ _ _ (next_trimmed until)).
      cbn [trace outcome]. rewrite batches_yield, posts_yield.
      split_and!; [done|simpl; lia|apply prefix_nil].
Qed.

Lemma next_good (until : option string) (st : gen_state) :
  batches (trace (next' until st)) = [] ∧
  ∀ b st', outcome (next' until st) = Ok (Some (b, st')) →
    NoDup b ∧ Forall (fun r => ∃ rest, r = "/shorts/" +:+ rest) b.
Proof.
  assert (∀ prefix raw pre,
    batches pre = [] →
    let m := '(videos_urls, continuation) ← _extract_shorts dumps raw;
             y ← pure_call (scan_page prefix until videos_urls continuation);
             mret (Some y) in
    batches (pre ++ trace m) = [] ∧
    ∀ b st', outcome m = Ok (Some (b, st')) →
      NoDup b ∧ Forall (fun r => ∃ rest, r = "/shorts/" +:+ rest) b) as Hvisit.
  { intros prefix raw pre Hpre.
    rewrite (io_eta (_extract_shorts dumps raw)), _extract_shorts_trace.
    destruct (outcome (_extract_shorts dumps raw)) as [[refs c]|e] eqn:Hex.
    - apply _extract_shorts_ok in Hex as [Hnd Hpf].
      destruct (scan_page prefix until refs c) as [[b0 st0]|e] eqn:Hscan.
      + cbn. rewrite Hscan. cbn. unfold batches in *. rewrite omap_app, Hpre.
        split; [done|]. intros b st' [= <- <-].
        apply scan_page_cases in Hscan as [[-> _]|(i & -> & _)]; [done|].
        split; [|by apply Forall_take].
        eapply sublist_NoDup; [done|apply sublist_take].
      + cbn. rewrite Hscan. cbn. unfold batches in *. rewrite omap_app, Hpre.
        by split.
    - cbn. unfold batches in *. rewrite omap_app, Hpre. by split. }
  destruct st as [| |c|]; try (by split).
  - apply (Hvisit "/shorts/" first_page []). done.
  - unfold next. destruct (load_more build c) as [[u h] d].
    destruct (truthy u && truthy h && truthy d); [|by split].
    destruct (post u h d) as [req|e]; [|by split].
    apply (Hvisit "/shorts/=" req [Post u h d]). done.
Qed.

Lemma pull_good (until : option string) (n : nat) (st : gen_state) :
  Forall (fun b => NoDup b ∧ Forall (fun r => ∃ rest, r = "/shorts/" +:+ rest) b)
    (batches (trace (pull' until n st))).
Proof.
  revert st; induction n as [|n IH]; intros st; [constructor|].
  destruct (next_good until st) as [Htr Hgood].
  destruct (next' until st) as [tr [[[b st']|]|e]] eqn:Hnext; simpl in Htr.
  - rewrite (pull_yield _ _ _ _ _ _ Hnext). cbn [trace].
    rewrite batches_yield, Htr. constructor; [by apply (Hgood b st')|apply IH].
  - rewrite (pull_stop _ _ _ _ Hnext). cbn [trace]. rewrite Htr. constructor.
  - rewrite (pull_raise _ _ _ _ _ Hnext). cbn [trace]. rewrite Htr. constructor.
Qed.

(** C6: over a finite chain of pages, each but the last with a continuation
    token and the last with none, every walk is exhausted once it has been
    resumed more often than there are pages, with at most one batch per page
    and no request besides those of the tokens, in their order; a walk with
    no boundary yields exactly one batch per page, in order, and issues
    exactly one request per token; a page no shape matches is such a last
    page, with an empty batch, and nothing is requested after it. *)
Theorem pagination_terminates (until : option string)
    (bs : list (list string)) (rs : list (json * json * json)) :
  chain' first_page bs rs →
  length bs = S (length rs) ∧
  (∀ n, length bs < n →
     outcome (paginate until n) = Ok Closed ∧
     (length (batches (trace (paginate until n))) ≤ length bs)%nat ∧
     posts (trace (paginate until n)) `prefix_of` rs) ∧
  (supplied until = false → ∀ n, length bs < n →
     batches (trace (paginate until n)) = bs ∧
     posts (trace (paginate until n)) = rs) ∧
  (∀ page, resolve 2 page = Ok None → chain' page [[]] []).
Proof.
  intros Hchain. split_and!.
  - by eapply chain_length.
  - intros n Hn. by apply pull_chain_bounded.
  - intros Hu n Hn. destruct (pull_chain until bs rs n Hu Hchain Hn) as (? & ? & _).
    by split.
  - intros page Hres. apply (chain_last _ _ _ page [] JNull); [|done].
    rewrite _extract_shorts_outcome.
    assert (first_match (shapes 2) page = None) as ->
      by (pose proof (resolve_first_match 2 page); congruence).
    done.
Qed.

(** C7: the caller supplies a boundary id whose path "/shorts/<id>" stands at
    index [i] of the first page: the walk writes the dump of the first page,
    yields the references before index [i] and nothing else, sends no
    request, and is exhausted at the next resumption. *)
Theorem boundary_in_first_page (id : string) (refs : list string) (c : json)
    (i n : nat) :
  id ≠ "" →
  outcome (_extract_shorts dumps first_page) = Ok (refs, c) →
  refs !! i = Some ("/shorts/" +:+ id) →
  trace (paginate (Some id) (S n)) = [dump first_page; Yield (take i refs)] ∧
  batches (trace (paginate (Some id) (S n))) = [take i refs] ∧
  posts (trace (paginate (Some id) (S n))) = [] ∧
  outcome (paginate (Some id) (S n))
    = Ok (match n with 0 => AtTrimmedYield | S _ => Closed end).
Proof.
  intros Hid Hex Hi. unfold _paginate_shorts.
  pose proof (_extract_shorts_ok _ _ _ _ Hex) as [Hnd _].
  rewrite (pull_yield _ _ _ _ _ _
             (next_created (Some id) refs c _ _ Hex
                (scan_page_found "/shorts/" id refs c i Hid Hnd Hi))).
  by destruct n.
Qed.

(** C1 (amended): over a finite chain of pages (the first page and the
    answers to the requests of the walk, in order) a walk with no boundary
    yields, flattened, the batches of the pages one after the other; the
    batch of a page is the list of the references of its entries, in the
    order of the page, with the first occurrence of each kept and every
    later repeat dropped, so it is free of duplicates; and a reference
    occurs in the flattened sequence once for every page whose batch has it,
    so a reference of an earlier page that a later page repeats is there
    again. *)
Theorem pages_concatenated (_video_url : string → string)
    (bs : list (list string)) (rs : list (json * json * json)) (n : nat) :
  chain' first_page bs rs → length bs < n →
  concat (batches (trace (paginate None n))) = concat bs ∧
  shorts_url_generator dumps build post first_page _video_url n
    = _video_url <$> concat bs ∧
  (∃ fetched : list json,
     Forall2 (fun '(u, h, d) answer => post u h d = Ok answer) rs fetched ∧
     Forall2 (fun page batch =>
                ∃ paths, entry_references page = Ok paths ∧
                         batch = first_occurrences paths)
       (first_page :: fetched) bs) ∧
  Forall NoDup bs ∧
  ∀ x, length (filter (fun y => y = x) (concat bs))
       = length (filter (fun b => x ∈ b) bs).
Proof.
  intros Hchain Hn.
  destruct (pull_chain None bs rs n eq_refl Hchain Hn) as (Hbs & _ & _).
  pose proof (chain_NoDup _ _ _ Hchain) as Hnd.
  pose proof (chain_pages _ _ _ Hchain) as Hpages.
  unfold shorts_url_generator. rewrite Hbs. split_and!; try done.
  intros x. by apply count_concat_NoDup.
Qed.

(** C9: every batch the shorts generator yields, on the first page or on a
    continuation page, with or without a boundary, is free of duplicates and
    holds only strings that start with "/shorts/"; every batch
    [_extract_videos] returns is free of duplicates and holds only strings
    that start with "/watch?v=". *)
Theorem batches_duplicate_free_prefixed (py_str : json → string)
    (until : option string) (n : nat) (batch : list string)
    (raw : json) (refs : list string) (c : json) :
  (batch ∈ batches (trace (paginate until n)) →
   NoDup batch ∧ Forall (fun r => ∃ rest, r = "/shorts/" +:+ rest) batch) ∧
  (_extract_videos py_str raw = Ok (refs, c) →
   NoDup refs ∧ Forall (fun r => ∃ rest, r = "/watch?v=" +:+ rest) refs).
Proof.
  split.
  - intros Hb. pose proof (pull_good until n Created) as Hall.
    rewrite Forall_forall in Hall. by apply Hall.
  - apply _extract_videos_ok.
Qed.

End WalkerFacts.

(** ** The walks of spec 8 *)

Lemma pagination_terminates_witness :
  let run := _paginate_shorts (fun _ => "") Pages.build Pages.two_pages_post
               Pages.two_pages_first None 3 in
  batches (trace run)
    = [["/shorts/a"; "/shorts/b"; "/shorts/c"]; ["/shorts/c"; "/shorts/d"]] ∧
  posts (trace run) = [Pages.build (JStr "T1")] ∧
  outcome run = Ok Closed.
Proof.
  assert (chain (fun _ => "") Pages.build Pages.two_pages_post
            Pages.two_pages_first
            [["/shorts/a"; "/shorts/b"; "/shorts/c"]; ["/shorts/c"; "/shorts/d"]]
            [Pages.build (JStr "T1")]) as Hchain.
  { eapply chain_next; [reflexivity..|]. eapply chain_last; reflexivity. }
  destruct (pagination_terminates (fun _ => "") Pages.build Pages.two_pages_post
              Pages.two_pages_first None _ _ Hchain) as (_ & Hend & Hrun & _).
  destruct (Hrun eq_refl 3 ltac:(simpl; lia)) as [Hbs Hrs].
  destruct (Hend 3 ltac:(simpl; lia)) as (Hout & _ & _).
  by split_and!.
Defined.

Lemma boundary_in_first_page_witness :
  let run := _paginate_shorts (fun _ => "") Pages.build Pages.two_pages_post
               Pages.two_pages_first (Some "b") 2 in
  batches (trace run) = [["/shorts/a"]] ∧
  posts (trace run) = [] ∧
  outcome run = Ok Closed.
Proof.
  destruct (boundary_in_first_page (fun _ => "") Pages.build
              Pages.two_pages_post Pages.two_pages_first "b"
              ["/shorts/a"; "/shorts/b"; "/shorts/c"] (JStr "T1") 1 1)
    as (_ & Hb & Hp & Ho); [done | reflexivity | reflexivity |].
  by split_and!.
Defined.

Lemma pages_concatenated_witness :
  let url := fun watch_path => "https://www.youtube.com" +:+ watch_path in
  shorts_url_generator (fun _ => "") Pages.build Pages.repeats_post
    Pages.repeats_first url 3
  = url <$> ["/shorts/b"; "/shorts/a"; "/shorts/a"; "/shorts/c"] ∧
  ∃ fetched : list json,
    Forall2 (fun '(u, h, d) answer => Pages.repeats_post u h d = Ok answer)
      [Pages.build (JStr "T1")] fetched ∧
    Forall2 (fun page batch =>
               ∃ paths, entry_references page = Ok paths ∧
                        batch = first_occurrences paths)
      (Pages.repeats_first :: fetched)
      [["/shorts/b"; "/shorts/a"]; ["/shorts/a"; "/shorts/c"]].
Proof.
  intros url.
  assert (chain (fun _ => "") Pages.build Pages.repeats_post
            Pages.repeats_first
            [["/shorts/b"; "/shorts/a"]; ["/shorts/a"; "/shorts/c"]]
            [Pages.build (JStr "T1")]) as Hchain.
  { eapply chain_next; [reflexivity..|]. eapply chain_last; reflexivity. }
  destruct (pages_concatenated (fun _ => "") Pages.build Pages.repeats_post
              Pages.repeats_first url _ _ 3 Hchain ltac:(simpl; lia))
    as (_ & Hurls & Hpages & _).
  split; [exact Hurls|exact Hpages].
Defined.

(** C1 (as stated, refuted): the walk of spec 8, a, b, c with the token T1
    then c, d.  The flattened sequence holds "/shorts/c" twice, once from
    each page, and so does the sequence of URLs. *)
Lemma cross_page_duplicate_kept :
  let run := _paginate_shorts (fun _ => "") Pages.build Pages.two_pages_post
               Pages.two_pages_first None 3 in
  outcome run = Ok Closed ∧
  concat (batches (trace run))
    = ["/shorts/a"; "/shorts/b"; "/shorts/c"; "/shorts/c"; "/shorts/d"] ∧
  ¬ NoDup (concat (batches (trace run))) ∧
  ¬ NoDup (shorts_url_generator (fun _ => "") Pages.build Pages.two_pages_post
             Pages.two_pages_first
             (fun watch_path => "https://www.youtube.com" +:+ watch_path) 3).
Proof.
  split_and!; [reflexivity | reflexivity | |];
    vm_compute; rewrite !NoDup_cons; set_solver.
Qed.

Lemma batches_duplicate_free_prefixed_witness :
  (NoDup ["/shorts/c"; "/shorts/d"] ∧
   Forall (fun r => ∃ rest, r = "/shorts/" +:+ rest) ["/shorts/c"; "/shorts/d"]) ∧
  (NoDup ["/watch?v=a"; "/watch?v=b"] ∧
   Forall (fun r => ∃ rest, r = "/watch?v=" +:+ rest) ["/watch?v=a"; "/watch?v=b"]).
Proof.
  destruct (batches_duplicate_free_prefixed (fun _ => "") Pages.build
              Pages.two_pages_post Pages.two_pages_first (fun _ => "") None 3
              ["/shorts/c"; "/shorts/d"]
              (Pages.initial_page
                 (JArr [Pages.video_entry "a"; Pages.video_entry "b";
                        Pages.video_entry "a"; Pages.marker (JStr "T1")])
                 (JArr []))
              ["/watch?v=a"; "/watch?v=b"] (JStr "T1")) as [Hs Hv].
  split.
  - apply Hs. vm_compute. apply list_elem_of_further, list_elem_of_here.
  - apply Hv. reflexivity.
Defined.

(** C2 (the code at the failing input): three pages, a, b, c then c, d, e
    then f, and the boundary "d", which stands in the second page only.  On
    a continuation page line 270 looks for "/shorts/=d", not for "/shorts/d"
    as line 244 does on the first page: the boundary is not found, the whole
    second page is yielded, the third page is requested and yielded. *)
Theorem boundary_in_second_page_missed (dumps : json → string) :
  let run := _paginate_shorts dumps Pages.build Pages.three_pages_post
               Pages.three_pages_first (Some "d") 4 in
  batches (trace run)
    = [["/shorts/a"; "/shorts/b"; "/shorts/c"];
       ["/shorts/c"; "/shorts/d"; "/shorts/e"];
       ["/shorts/f"]] ∧
  posts (trace run) = [Pages.build (JStr "T1"); Pages.build (JStr "T2")] ∧
  outcome run = Ok Closed.
Proof. by split_and!. Qed.

(** * Further properties *)

(** ** [str.split] and the last segment *)

Lemma split_snoc (sep : Ascii.ascii) (s : string) :
  ∃ l seg pre,
    split sep s = l ++ [seg] ∧ mentions sep seg = false ∧
    s = pre +:+ seg ∧
    (l = [] → pre = "") ∧
    (l ≠ [] → ∃ p, pre = p +:+ String sep "").
Proof.
  induction s as [|c r (l & seg & pre & Hsplit & Hseg & Hr & Hnil & Hcons)].
  - exists [], "", "". by split_and!.
  - simpl. destruct (Ascii.eqb_spec c sep) as [->|Hne].
    + exists ("" :: l), seg, (String sep pre). rewrite Hsplit.
      split_and!; [done|done|by rewrite Hr|done|].
      intros _. destruct l as [|h t].
      * rewrite Hnil by done. by exists "".
      * destruct Hcons as [p ->]; [done|]. by exists (String sep p).
    + rewrite Hsplit. destruct l as [|h t]; simpl.
      * exists [], (String c seg), "". rewrite Hnil in Hr by done.
        split_and!; [done| |by rewrite Hr|done|done].
        simpl. rewrite Hseg. by destruct (Ascii.eqb_spec c sep).
      * exists (String c h :: t), seg, (String c pre).
        split_and!; [done|done|by rewrite Hr|done|].
        intros _. destruct Hcons as [p ->]; [done|]. by exists (String c p).
Qed.

Lemma list_getitem_split_last (s : string) :
  list_getitem (split "/"%char s) (-1) = Ok (last_segment s).
Proof.
  unfold last_segment.
  destruct (split_snoc "/"%char s) as (l & seg & _ & -> & _).
  by rewrite list_getitem_last, last_snoc.
Qed.

Lemma split_nonempty (sep : Ascii.ascii) (s : string) : split sep s ≠ [].
Proof. destruct (split_snoc sep s) as (l & seg & _ & -> & _). by destruct l. Qed.

Lemma split_no_sep (sep : Ascii.ascii) (s : string) :
  mentions sep s = false → split sep s = [s].
Proof.
  induction s as [|c r IH]; simpl; [done|].
  destruct (Ascii.eqb c sep); simpl; [done|]. intros H. by rewrite IH.
Qed.

Lemma split_app (sep : Ascii.ascii) (a b : string) :
  split sep (a +:+ String sep b) = split sep a ++ split sep b.
Proof.
  induction a as [|c a IH]; simpl.
  - by rewrite Ascii.eqb_refl.
  - rewrite IH. destruct (Ascii.eqb c sep); [done|].
    pose proof (split_nonempty sep a). by destruct (split sep a).
Qed.

Lemma last_segment_app (pre id : string) :
  mentions "/"%char id = false → last_segment (pre +:+ "/" +:+ id) = id.
Proof.
  intros Hid. unfold last_segment.
  change ("/" +:+ id) with (String "/"%char id).
  by rewrite split_app, (split_no_sep _ id Hid), last_snoc.
Qed.

Lemma getpath_app (v : json) (p q : list key) :
  getpath v (p ++ q) = (w ← getpath v p; getpath w q).
Proof.
  revert v; induction p as [|k p IH]; intros v; simpl; [done|].
  destruct (getitem v k); simpl; [apply IH|done].
Qed.

Lemma short_path_eq (x : json) :
  short_path x
  = (url ← getpath x short_url_path;
     match url with
     | JStr s => Ok ("/shorts/" +:+ last_segment s)
     | _ => Raise AttributeError
     end).
Proof.
  unfold short_path. change (getpath x [_; _; _; _; _; _; _; _])
    with (getpath x short_url_path).
  destruct (getpath x short_url_path) as [url|]; simpl; [|done].
  destruct url; simpl; try done. by rewrite list_getitem_split_last.
Qed.

(** X1: when the lambda of [_extract_shorts] maps an entry, the url it read
    is a [str], and the reference is "/shorts/" followed by what stands
    after the last "/" of that url (the whole url when it has none): a
    segment that has no "/" in it. *)
Theorem short_path_last_segment (x : json) (r : string) :
  short_path x = Ok r →
  ∃ url pre seg,
    getpath x short_url_path = Ok (JStr url) ∧
    url = pre +:+ seg ∧ (pre = "" ∨ ∃ p, pre = p +:+ "/") ∧
    mentions "/"%char seg = false ∧
    r = "/shorts/" +:+ seg.
Proof.
  rewrite short_path_eq.
  destruct (getpath x short_url_path) as [[| | | |url| |]|]; simpl; try done.
  intros [= <-]. unfold last_segment.
  destruct (split_snoc "/"%char url) as (l & seg & pre & -> & Hseg & Hurl & Hnil & Hcons).
  rewrite last_snoc. simpl. exists url, pre, seg. split_and!; try done.
  destruct l; [left; by apply Hnil|right; by apply Hcons].
Qed.

Lemma short_path_last_segment_witness :
  ∃ url pre seg,
    getpath (Pages.short_entry "https://www.youtube.com/shorts/abc")
      short_url_path = Ok (JStr url) ∧
    url = pre +:+ seg ∧ (pre = "" ∨ ∃ p, pre = p +:+ "/") ∧
    mentions "/"%char seg = false ∧
    "/shorts/abc" = "/shorts/" +:+ seg.
Proof.
  apply (short_path_last_segment
           (Pages.short_entry "https://www.youtube.com/shorts/abc")).
  reflexivity.
Defined.

(** X2: an entry whose url ends in "/<id>", with no "/" in the id, maps to
    "/shorts/<id>" whatever stands before: the canonical path
    "/shorts/<id>" maps to itself and an absolute URL to its canonical
    path; a url with no "/" at all is taken whole. *)
Theorem short_path_canonical (pre id : string) :
  mentions "/"%char id = false →
  short_path (Pages.short_entry (pre +:+ "/" +:+ id)) = Ok ("/shorts/" +:+ id) ∧
  short_path (Pages.short_entry id) = Ok ("/shorts/" +:+ id).
Proof.
  intros Hid. rewrite !short_path_eq. split.
  - change (getpath (Pages.short_entry ?u) short_url_path) with (Ok (JStr u)).
    simpl. by rewrite last_segment_app.
  - change (getpath (Pages.short_entry ?u) short_url_path) with (Ok (JStr u)).
    simpl. unfold last_segment. by rewrite split_no_sep.
Qed.

Lemma short_path_canonical_witness :
  short_path (Pages.short_entry ("https://www.youtube.com/shorts" +:+ "/" +:+ "abc"))
    = Ok "/shorts/abc" ∧
  short_path (Pages.short_entry "abc") = Ok "/shorts/abc".
Proof. apply (short_path_canonical "https://www.youtube.com/shorts" "abc"). reflexivity. Defined.

(** ** What the extractors return and raise *)

Lemma list_getitem_minus1_inv {A} (l : list A) (x : A) :
  list_getitem l (-1) = Ok x → ∃ l0, l = l0 ++ [x].
Proof.
  destruct l as [|a l'] using rev_ind; [done|].
  rewrite list_getitem_last. intros [= ->]. by eexists.
Qed.

(** X3: the continuation block (lines 185-192 / 346-353) has three ways
    out and no other: the resolved node is a list whose last entry carries a
    token on the marker path, and it returns the entries before it with
    that token; or it returns the node unchanged with no token; or it raises
    [TypeError].  It never raises [KeyError] or [IndexError]. *)
Theorem split_continuation_cases (videos : json) :
  (∃ l x token, videos = JArr (l ++ [x]) ∧ getpath x marker_path = Ok token ∧
                split_continuation videos = Ok (JArr l, token)) ∨
  split_continuation videos = Ok (videos, JNull) ∨
  split_continuation videos = Raise TypeError.
Proof.
  destruct (getpath videos token_path) as [token|e] eqn:Hpath.
  - left. revert Hpath. replace token_path with (KInt (-1) :: marker_path) by done.
    cbn [getpath]. destruct (getitem videos (KInt (-1))) as [x|] eqn:Hx; [|done].
    cbn [mbind result_bind]. intros Hm.
    destruct videos as [| | | |s|l|]; try done.
    + simpl in Hx. destruct (list_getitem (chars s) (-1)); [|done].
      by simplify_eq/=.
    + simpl in Hx. apply list_getitem_minus1_inv in Hx as [l0 ->].
      exists l0, x, token. split_and!; [done..|].
      by apply split_continuation_marker.
  - pose proof (getpath_raises _ _ _ Hpath) as He.
    destruct (decide (e = TypeError)) as [->|Hne].
    + right; right. by apply split_continuation_raises.
    + right; left. apply (split_continuation_no_marker _ e Hpath). set_solver.
Qed.

Lemma getitem_str_raises (v : json) (k : string) (e : exn) :
  getitem v (KStr k) = Raise e → e = KeyError ∨ e = TypeError.
Proof.
  destruct v; simpl; try (intros [= <-]; by right).
  destruct (dict_get _ _); intros [= <-]. by left.
Qed.

Lemma getpath_str_raises (ks : list string) (v : json) (e : exn) :
  getpath v (KStr <$> ks) = Raise e → e = KeyError ∨ e = TypeError.
Proof.
  revert v; induction ks as [|k ks IH]; intros v; simpl; [done|].
  destruct (getitem v (KStr k)) eqn:E; simpl; [apply IH|].
  intros [= <-]. by apply getitem_str_raises in E.
Qed.

Lemma map_result_raises {A B} (f : A → result B) (xs : list A) (e : exn) :
  map_result f xs = Raise e → ∃ x, x ∈ xs ∧ f x = Raise e.
Proof.
  induction xs as [|x xs IH]; simpl; [done|].
  destruct (f x) eqn:Hx; simpl.
  - destruct (map_result f xs); simpl; [done|]. intros [= <-].
    destruct IH as (y & Hy & Hfy); [done|]. exists y. split; [by right|done].
  - intros [= <-]. exists x. split; [by left|done].
Qed.

Lemma references_raises (f : json → result string) (videos c : json) (e : exn) :
  references f videos c = Raise e →
  e = TypeError ∨ ∃ x, f x = Raise e.
Proof.
  unfold references. destruct (iterate videos) as [items|e'] eqn:Hit; simpl.
  - destruct (map_result f items) eqn:Hmap; simpl; [done|]. intros [= <-].
    apply map_result_raises in Hmap as (x & _ & Hx). right. by exists x.
  - intros [= <-]. left. by destruct videos; simplify_eq/=.
Qed.

Lemma split_continuation_raises_only (videos : json) (e : exn) :
  split_continuation videos = Raise e → e = TypeError.
Proof.
  unfold split_continuation.
  destruct (getpath videos token_path) as [token|e'] eqn:Hpath; simpl.
  - destruct videos; simpl; congruence.
  - apply getpath_raises in Hpath. case_bool_decide; [done|].
    intros [= <-]. set_solver.
Qed.

Lemma _extract_videos_lookups_raise (py_str : json → string) (raw : json)
    (e : exn) :
  _extract_videos py_str raw = Raise e → e = KeyError ∨ e = TypeError.
Proof.
  rewrite _extract_videos_outcome.
  destruct (first_match _ _) as [videos|]; [|done].
  destruct (split_continuation videos) as [[v c]|e'] eqn:Hsplit; simpl.
  - intros [->|[x Hx]]%references_raises; [by right|].
    unfold video_path in Hx.
    change [KStr "richItemRenderer"; KStr "content"; KStr "videoRenderer";
            KStr "videoId"]
      with (KStr <$> ["richItemRenderer"; "content"; "videoRenderer"; "videoId"])
      in Hx.
    destruct (getpath x _) eqn:Hp; simpl in Hx; [done|].
    injection Hx as <-. by apply getpath_str_raises in Hp.
  - intros [= <-]. right. by apply split_continuation_raises_only in Hsplit.
Qed.

Lemma _extract_shorts_lookups_raise (dumps : json → string) (raw : json)
    (e : exn) :
  outcome (_extract_shorts dumps raw) = Raise e →
  e = KeyError ∨ e = TypeError ∨ e = AttributeError.
Proof.
  rewrite _extract_shorts_outcome.
  destruct (first_match _ _) as [videos|]; [|done].
  destruct (split_continuation videos) as [[v c]|e'] eqn:Hsplit; simpl.
  - intros [->|[x Hx]]%references_raises; [by right; left|].
    rewrite short_path_eq in Hx. unfold short_url_path in Hx.
    change [KStr "richItemRenderer"; KStr "content"; KStr "shortsLockupViewModel";
            KStr "onTap"; KStr "innertubeCommand"; KStr "commandMetadata";
            KStr "webCommandMetadata"; KStr "url"]
      with (KStr <$> ["richItemRenderer"; "content"; "shortsLockupViewModel";
                      "onTap"; "innertubeCommand"; "commandMetadata";
                      "webCommandMetadata"; "url"]) in Hx.
    destruct (getpath x _) as [url|] eqn:Hp; simpl in Hx.
    + destruct url; simplify_eq/=; by right; right.
    + injection Hx as <-. apply getpath_str_raises in Hp as [->| ->]; by eauto.
  - intros [= <-]. right; left. by apply split_continuation_raises_only in Hsplit.
Qed.

(** X4: whatever [json.loads] raises on the body (line 157, outside every
    [try]) leaves [_extract_videos] as it is; an exception that leaves
    [_extract_videos] is that one, or a [KeyError] or a [TypeError] of the
    lookups: once the body has parsed, no [IndexError], [AttributeError] or
    [ValueError] leaves it. *)
Theorem _extract_videos_raises (py_str : json → string)
    (loads : string → result json) (raw_json : string) (e : exn) :
  (loads raw_json = Raise e → Body._extract_videos py_str loads raw_json = Raise e) ∧
  (Body._extract_videos py_str loads raw_json = Raise e →
   loads raw_json = Raise e ∨
   ∃ initial_data, loads raw_json = Ok initial_data ∧
                   (e = KeyError ∨ e = TypeError)).
Proof.
  unfold Body._extract_videos. split.
  - by intros ->.
  - destruct (loads raw_json) as [initial_data|e']; simpl; [|intros [= ->]; by left].
    intros H. apply _extract_videos_lookups_raise in H. right.
    by exists initial_data.
Qed.

Lemma _extract_videos_raises_witness :
  (let loads := fun body : string => Raise ValueError in
   Body._extract_videos (fun _ => "") loads "<html>" = Raise ValueError) ∧
  (let loads := fun body : string =>
     Ok (Pages.continuation_page (one_good_one_bad (Pages.video_entry "a"))) in
   loads "{}" = Raise KeyError ∨
   ∃ initial_data, loads "{}" = Ok initial_data ∧
                   (KeyError = KeyError ∨ KeyError = TypeError)).
Proof.
  split; intros loads.
  - apply (proj1 (_extract_videos_raises (fun _ => "") loads "<html>" ValueError)).
    reflexivity.
  - apply (proj2 (_extract_videos_raises (fun _ => "") loads "{}" KeyError)).
    reflexivity.
Defined.

(** X5: whatever [json.loads] raises on the body (line 315) and, once the
    body has parsed, whatever the dump of lines 317-320 raises leaves
    [_extract_shorts] as it is, both standing before the first [try]; an
    exception that leaves [_extract_shorts] is one of these two, or a
    [KeyError], a [TypeError] or an [AttributeError] (a url that is not a
    [str]) of the lookups: once the body has parsed and the dump is written,
    no [IndexError] or [ValueError] leaves it, the split of a [str] never
    being empty. *)
Theorem _extract_shorts_raises (dumps : json → string)
    (loads : string → result json) (dump_raises : json → option exn)
    (raw_json : string) (e : exn) :
  (loads raw_json = Raise e →
   Body._extract_shorts dumps loads dump_raises raw_json = Raise e) ∧
  (∀ initial_data, loads raw_json = Ok initial_data →
                   dump_raises initial_data = Some e →
   Body._extract_shorts dumps loads dump_raises raw_json = Raise e) ∧
  (Body._extract_shorts dumps loads dump_raises raw_json = Raise e →
   loads raw_json = Raise e ∨
   ∃ initial_data, loads raw_json = Ok initial_data ∧
                   (dump_raises initial_data = Some e ∨
                    dump_raises initial_data = None ∧
                    (e = KeyError ∨ e = TypeError ∨ e = AttributeError))).
Proof.
  unfold Body._extract_shorts. split_and!.
  - by intros ->.
  - intros initial_data Hload Hdump. rewrite Hload. simpl. by rewrite Hdump.
  - destruct (loads raw_json) as [initial_data|e']; cbn [mbind result_bind];
      [|intros [= ->]; by left].
    intros H. right. exists initial_data. split; [done|].
    destruct (dump_raises initial_data) as [e'|]; [left; congruence|].
    right. split; [done|].
    by apply (_extract_shorts_lookups_raise dumps initial_data).
Qed.

Lemma _extract_shorts_raises_witness :
  (let loads := fun body : string => Raise ValueError in
   Body._extract_shorts (fun _ => "") loads (fun _ => None) "<html>"
   = Raise ValueError) ∧
  (let loads := fun body : string => Ok (JStr body) in
   Body._extract_shorts (fun _ => "") loads (fun _ => Some ValueError) "{}"
   = Raise ValueError) ∧
  (let loads := fun body : string =>
     Ok (Pages.continuation_page
           (JArr [Pages.nest ["richItemRenderer"; "content";
                              "shortsLockupViewModel"; "onTap";
                              "innertubeCommand"; "commandMetadata";
                              "webCommandMetadata"; "url"] (JInt 7)])) in
   loads "{}" = Raise AttributeError ∨
   ∃ initial_data,
     loads "{}" = Ok initial_data ∧
     ((fun _ : json => @None exn) initial_data = Some AttributeError ∨
      (fun _ : json => @None exn) initial_data = None ∧
      (AttributeError = KeyError ∨ AttributeError = TypeError
       ∨ AttributeError = AttributeError))).
Proof.
  split_and!; intros loads.
  - apply (proj1 (_extract_shorts_raises (fun _ => "") loads (fun _ => None)
                    "<html>" ValueError)).
    reflexivity.
  - apply (proj1 (proj2 (_extract_shorts_raises (fun _ => "") loads
                           (fun _ => Some ValueError) "{}" ValueError))
             (JStr "{}")); reflexivity.
  - apply (proj2 (proj2 (_extract_shorts_raises (fun _ => "") loads
                           (fun _ => None) "{}" AttributeError))).
    reflexivity.
Defined.

Lemma split_continuation_final (es : list json) :
  no_marker es → split_continuation (JArr es) = Ok (JArr es, JNull).
Proof.
  intros [->|(es0 & x & -> & Hx)]; [done|].
  apply (split_continuation_no_marker _ KeyError); [|set_solver].
  replace token_path with (KInt (-1) :: marker_path) by done.
  cbn [getpath getitem]. rewrite list_getitem_last. cbn [mbind result_bind].
  unfold marker_path. cbn [getpath]. by rewrite Hx.
Qed.

Lemma references_list (f : json → result string) (es : list json)
    (paths : list string) (c : json) :
  map_result f es = Ok paths →
  references f (JArr es) c = Ok (uniqueify paths, c).
Proof. intros H. unfold references. simpl. by rewrite H. Qed.

Lemma shorts_pages_resolve (other entries page : json) :
  page ∈ shorts_pages other entries → first_match (shapes 2) page = Some entries.
Proof.
  unfold shorts_pages. rewrite !elem_of_cons, elem_of_nil.
  by intros [->|[->|[->|[]]]].
Qed.

Lemma shorts_page_marker (dumps : json → string) (other : json)
    (es : list json) (paths : list string) (token page : json) :
  map_result short_path es = Ok paths →
  page ∈ shorts_pages other (JArr (es ++ [Pages.marker token])) →
  outcome (_extract_shorts dumps page) = Ok (uniqueify paths, token).
Proof.
  intros Hmap Hpage. rewrite _extract_shorts_outcome, (shorts_pages_resolve _ _ _ Hpage).
  rewrite (split_continuation_marker es (Pages.marker token) token eq_refl).
  by apply references_list.
Qed.

Lemma shorts_page_final (dumps : json → string) (other : json)
    (es : list json) (paths : list string) (page : json) :
  map_result short_path es = Ok paths → no_marker es →
  page ∈ shorts_pages other (JArr es) →
  outcome (_extract_shorts dumps page) = Ok (uniqueify paths, JNull).
Proof.
  intros Hmap Hes Hpage.
  rewrite _extract_shorts_outcome, (shorts_pages_resolve _ _ _ Hpage).
  rewrite (split_continuation_final es Hes). by apply references_list.
Qed.

(** X6: a page that carries, in any of the three known trees, entries the
    lambda maps to [paths], followed by a continuation marker, extracts to
    the distinct paths in order of first occurrence and the token of the
    marker; the same entries with no marker after them extract to the same
    batch and no token.  So for [_extract_shorts]. *)
Theorem _extract_shorts_page (dumps : json → string) (other : json)
    (es : list json) (paths : list string) (token : json) :
  map_result short_path es = Ok paths →
  Forall (fun page => outcome (_extract_shorts dumps page)
                      = Ok (uniqueify paths, token))
    (shorts_pages other (JArr (es ++ [Pages.marker token]))) ∧
  (no_marker es →
   Forall (fun page => outcome (_extract_shorts dumps page)
                       = Ok (uniqueify paths, JNull))
     (shorts_pages other (JArr es))).
Proof.
  intros Hmap. split; [|intros Hes]; apply Forall_forall; intros page Hpage.
  - by eapply shorts_page_marker.
  - by eapply shorts_page_final.
Qed.

Lemma _extract_shorts_page_witness :
  Forall (fun page => outcome (_extract_shorts (fun _ => "") page)
                      = Ok (["/shorts/a"; "/shorts/b"], JStr "T1"))
    (shorts_pages JNull (JArr (Pages.shorts ["a"; "b"; "a"] ++ [Pages.marker (JStr "T1")]))) ∧
  Forall (fun page => outcome (_extract_shorts (fun _ => "") page)
                      = Ok (["/shorts/a"; "/shorts/b"], JNull))
    (shorts_pages JNull (JArr (Pages.shorts ["a"; "b"; "a"]))).
Proof.
  destruct (_extract_shorts_page (fun _ => "") JNull (Pages.shorts ["a"; "b"; "a"])
              ["/shorts/a"; "/shorts/b"; "/shorts/a"] (JStr "T1") eq_refl)
    as [Hmarker Hfinal].
  split; [exact Hmarker|]. apply Hfinal. right.
  exists (Pages.shorts ["a"; "b"]), (Pages.short_entry "/shorts/a"). by split.
Defined.

(** X7: the same for [_extract_videos], whose initial-page tree holds the
    entries under the second tab instead of the third. *)
Theorem _extract_videos_page (py_str : json → string) (other : json)
    (es : list json) (paths : list string) (token : json) :
  map_result (video_path py_str) es = Ok paths →
  Forall (fun page => _extract_videos py_str page = Ok (uniqueify paths, token))
    (videos_pages other (JArr (es ++ [Pages.marker token]))) ∧
  (no_marker es →
   Forall (fun page => _extract_videos py_str page = Ok (uniqueify paths, JNull))
     (videos_pages other (JArr es))).
Proof.
  intros Hmap. split; [|intros Hes]; repeat constructor;
    rewrite _extract_videos_outcome;
    change (first_match (shapes 1) _) with (Some (JArr (es ++ [Pages.marker token])))
    || change (first_match (shapes 1) _) with (Some (JArr es)).
  all: cbv beta iota.
  1-3: rewrite (split_continuation_marker es (Pages.marker token) token eq_refl);
       by apply references_list.
  all: rewrite (split_continuation_final es Hes); by apply references_list.
Qed.

Lemma _extract_videos_page_witness :
  Forall (fun page => _extract_videos (fun _ => "") page
                      = Ok (["/watch?v=a"; "/watch?v=b"], JStr "T1"))
    (videos_pages JNull
       (JArr ((Pages.video_entry <$> ["a"; "b"; "a"]) ++ [Pages.marker (JStr "T1")]))) ∧
  Forall (fun page => _extract_videos (fun _ => "") page
                      = Ok (["/watch?v=a"; "/watch?v=b"], JNull))
    (videos_pages JNull (JArr (Pages.video_entry <$> ["a"; "b"; "a"]))).
Proof.
  assert (map_result (video_path (fun _ => "")) (Pages.video_entry <$> ["a"; "b"; "a"])
          = Ok ["/watch?v=a"; "/watch?v=b"; "/watch?v=a"]) as Hmap by reflexivity.
  destruct (_extract_videos_page (fun _ => "") JNull _ _ (JStr "T1") Hmap)
    as [Hmarker Hfinal].
  split; [exact Hmarker|]. apply Hfinal. right.
  exists (Pages.video_entry <$> ["a"; "b"]), (Pages.video_entry "a"). by split.
Defined.

(** ** More on the page generator *)

Lemma files_after_app (tr1 tr2 : list event) (fs : string → option string) :
  files_after (tr1 ++ tr2) fs = files_after tr2 (files_after tr1 fs).
Proof.
  revert fs; induction tr1 as [|e tr1 IH]; intros fs; [done|].
  destruct e; simpl; apply IH.
Qed.

Lemma io_bind_trace {A B} (m : io A) (k : A → io B) :
  trace (m ≫= k)
  = trace m ++ match outcome m with Ok a => trace (k a) | Raise _ => [] end.
Proof.
  unfold mbind, io_bind. destruct (outcome m); simpl; [done|by rewrite app_nil_r].
Qed.

Section WalkerMore.

Variable dumps : json → string.
Variable build : json → json * json * json.
Variable post : json → json → json → result json.
Variable first_page : json.

Abbreviation next' := (next dumps build post first_page).
Abbreviation pull' := (pull dumps build post first_page).
Abbreviation paginate := (_paginate_shorts dumps build post first_page).
Abbreviation chain' := (chain dumps build post).
Abbreviation dump raw := (WriteFile "shorts_initial_data.json" (dumps raw)).
Abbreviation pull_yield' := (pull_yield dumps build post first_page).
Abbreviation pull_stop' := (pull_stop dumps build post first_page).
Abbreviation pull_raise' := (pull_raise dumps build post first_page).

(** What one resumption leaves in the trace. *)
Lemma next_trace (until : option string) (st : gen_state) :
  match st with
  | Created => trace (next' until st) = [dump first_page]
  | AtPageYield c =>
      trace (next' until st) = [] ∨
      ∃ u h d, trace (next' until st) = [Post u h d] ∨
               ∃ req, trace (next' until st) = [Post u h d; dump req]
  | _ => trace (next' until st) = []
  end.
Proof.
  assert (∀ prefix raw,
    trace ('(videos_urls, continuation) ← _extract_shorts dumps raw;
           y ← pure_call (scan_page prefix until videos_urls continuation);
           mret (Some y)) = [dump raw]) as Hvisit.
  { intros prefix raw.
    rewrite (io_eta (_extract_shorts dumps raw)), _extract_shorts_trace.
    destruct (outcome (_extract_shorts dumps raw)) as [[refs c]|e]; [|done].
    cbn. by destruct (scan_page prefix until refs c) as [[b0 st0]|e]. }
  destruct st as [| |c|]; try done.
  - apply Hvisit.
  - unfold next. destruct (load_more build c) as [[u h] d].
    destruct (truthy u && truthy h && truthy d); [|by left].
    right. exists u, h, d. destruct (post u h d) as [req|e]; [|by left].
    right. exists req. rewrite !io_bind_trace. cbn [emit pure_call outcome trace].
    by rewrite Hvisit.
Qed.

Lemma next_counts (until : option string) (st : gen_state) :
  batches (trace (next' until st)) = [] ∧
  (length (posts (trace (next' until st))) ≤ 1)%nat ∧
  (st = Created → posts (trace (next' until st)) = []) ∧
  ∀ fs p, p ≠ "shorts_initial_data.json" →
          files_after (trace (next' until st)) fs p = fs p.
Proof.
  pose proof (next_trace until st) as H.
  assert (∀ raw fs p, p ≠ "shorts_initial_data.json" →
            (if String.eqb p "shorts_initial_data.json"
             then Some (dumps raw) else fs p) = fs p) as Hfs.
  { intros raw fs p Hp. by destruct (String.eqb_spec p "shorts_initial_data.json"). }
  destruct st as [| |c|].
  - rewrite H. split_and!; try done; simpl; [lia|]. intros fs p Hp. by apply Hfs.
  - rewrite H. split_and!; try done. simpl; lia.
  - destruct H as [->|(u & h & d & [->|(req & ->)])]; split_and!; try done;
      simpl; try lia. intros fs p Hp. by apply Hfs.
  - rewrite H. split_and!; try done. simpl; lia.
Qed.

Lemma pull_counts (until : option string) (n : nat) (st : gen_state) :
  (length (batches (trace (pull' until n st))) ≤ n)%nat ∧
  (length (posts (trace (pull' until n st))) ≤ n)%nat ∧
  (st = Created → length (posts (trace (pull' until n st))) ≤ n - 1)%nat ∧
  ∀ fs p, p ≠ "shorts_initial_data.json" →
          files_after (trace (pull' until n st)) fs p = fs p.
Proof.
  revert st; induction n as [|n IH]; intros st; [by split_and!|].
  destruct (next_counts until st) as (Hb & Hp & Hc & Hf).
  destruct (next' until st) as [tr [[[b st']|]|e]] eqn:Hnext; simpl in Hb, Hp, Hc, Hf.
  - rewrite (pull_yield' _ _ _ _ _ _ Hnext). cbn [trace].
    destruct (IH st') as (IHb & IHp & _ & IHf).
    rewrite batches_yield, posts_yield, Hb, !length_app. simpl.
    split_and!; [lia|lia| |].
    + intros Hst. rewrite (Hc Hst). simpl. lia.
    + intros fs p Hne. rewrite files_after_app. simpl.
      by rewrite IHf, Hf.
  - rewrite (pull_stop' _ _ _ _ Hnext). cbn [trace]. rewrite Hb.
    split_and!; [simpl; lia|lia| |done].
    intros Hst. rewrite (Hc Hst). simpl. lia.
  - rewrite (pull_raise' _ _ _ _ _ Hnext). cbn [trace]. rewrite Hb.
    split_and!; [simpl; lia|lia| |done].
    intros Hst. rewrite (Hc Hst). simpl. lia.
Qed.

(** X8: whatever the pages, the server and the boundary, a consumer that
    has asked [_paginate_shorts] for [n] batches has received at most [n]
    batches and caused at most [n - 1] continuation requests: no page is
    requested before the batch of the page before it was asked for. *)
Theorem pagination_is_lazy (until : option string) (n : nat) :
  (length (batches (trace (paginate until n))) ≤ n)%nat ∧
  (length (posts (trace (paginate until n))) ≤ n - 1)%nat.
Proof.
  destruct (pull_counts until n Created) as (Hb & _ & Hp & _).
  split; [done|by apply Hp].
Qed.

(** X9: whatever the pages, the server and the boundary, a walk writes no
    file but "shorts_initial_data.json": every other path holds after the
    walk what it held before. *)
Theorem pagination_writes_one_file (until : option string) (n : nat)
    (fs : string → option string) (p : string) :
  p ≠ "shorts_initial_data.json" →
  files_after (trace (paginate until n)) fs p = fs p.
Proof. intros Hp. by apply pull_counts. Qed.

End WalkerMore.

Lemma pagination_writes_one_file_witness :
  files_after
    (trace (_paginate_shorts (fun _ => "dump") Pages.build Pages.two_pages_post
              Pages.two_pages_first None 3))
    (fun _ => None) "notes.txt" = None.
Proof.
  apply (pagination_writes_one_file (fun _ => "dump") Pages.build
           Pages.two_pages_post Pages.two_pages_first None 3 (fun _ => None)
           "notes.txt").
  done.
Defined.

Section WalkerErrors.

Variable dumps : json → string.
Variable build : json → json * json * json.
Variable post : json → json → json → result json.
Variable first_page : json.

Abbreviation next' := (next dumps build post first_page).
Abbreviation pull' := (pull dumps build post first_page).
Abbreviation paginate := (_paginate_shorts dumps build post first_page).
Abbreviation chain' := (chain dumps build post).
Abbreviation dump raw := (WriteFile "shorts_initial_data.json" (dumps raw)).
Abbreviation pull_yield' := (pull_yield dumps build post first_page).
Abbreviation pull_stop' := (pull_stop dumps build post first_page).
Abbreviation pull_raise' := (pull_raise dumps build post first_page).
Abbreviation next_created' := (next_created dumps build post first_page).
Abbreviation next_page' := (next_page dumps build post first_page).
Abbreviation next_page_stop' := (next_page_stop dumps build post first_page).

Lemma next_created_raise (until : option string) (e : exn) :
  outcome (_extract_shorts dumps first_page) = Raise e →
  next' until Created = IO [dump first_page] (Raise e).
Proof.
  intros Hex. unfold next.
  by rewrite (io_eta (_extract_shorts dumps first_page)), _extract_shorts_trace, Hex.
Qed.

Lemma next_page_post_raise (until : option string) (c u h d : json) (e : exn) :
  truthy c = true → build c = (u, h, d) →
  truthy u && truthy h && truthy d = true →
  post u h d = Raise e →
  next' until (AtPageYield c) = IO [Post u h d] (Raise e).
Proof.
  intros Hc Hb Ht Hp. unfold next, load_more. by rewrite Hc, Hb, Ht, Hp.
Qed.

Lemma next_page_extract_raise (until : option string) (c u h d req : json)
    (e : exn) :
  truthy c = true → build c = (u, h, d) →
  truthy u && truthy h && truthy d = true →
  post u h d = Ok req →
  outcome (_extract_shorts dumps req) = Raise e →
  next' until (AtPageYield c) = IO [Post u h d; dump req] (Raise e).
Proof.
  intros Hc Hb Ht Hp Hex. unfold next, load_more.
  rewrite Hc, Hb, Ht, Hp. cbn [mbind io_bind emit pure_call outcome trace].
  by rewrite (io_eta (_extract_shorts dumps req)), _extract_shorts_trace, Hex.
Qed.

(** X10: when the request for the second page fails, a walk with no
    boundary has written the dump of the first page and yielded its batch,
    has sent that one request, and raises the error of the transport at the
    second resumption: the batch already yielded is not lost and nothing is
    written after the failure. *)
Theorem transport_failure_propagates (until : option string)
    (refs : list string) (c u h d : json) (e : exn) (n : nat) :
  supplied until = false →
  outcome (_extract_shorts dumps first_page) = Ok (refs, c) →
  truthy c = true → build c = (u, h, d) →
  truthy u && truthy h && truthy d = true →
  post u h d = Raise e →
  paginate until (S (S n))
  = IO [dump first_page; Yield refs; Post u h d] (Raise e).
Proof.
  intros Hu Hex Hc Hb Ht Hp. unfold _paginate_shorts.
  rewrite (pull_yield' _ _ _ _ _ _
             (next_created' until refs c _ _ Hex
                (scan_page_not_supplied _ _ _ _ Hu))).
  by rewrite (pull_raise' _ _ _ _ _
                (next_page_post_raise until c u h d e Hc Hb Ht Hp)).
Qed.

(** X11: a page whose extraction raises ends the walk with that error, its
    dump written all the same and no batch yielded for it: on the first
    page nothing has been yielded or requested; on the second page the
    batch of the first page has been yielded and one request sent. *)
Theorem extraction_failure_propagates (until : option string)
    (refs : list string) (c u h d req : json) (e : exn) (n : nat) :
  (outcome (_extract_shorts dumps first_page) = Raise e →
   paginate until (S n) = IO [dump first_page] (Raise e)) ∧
  (supplied until = false →
   outcome (_extract_shorts dumps first_page) = Ok (refs, c) →
   truthy c = true → build c = (u, h, d) →
   truthy u && truthy h && truthy d = true →
   post u h d = Ok req →
   outcome (_extract_shorts dumps req) = Raise e →
   paginate until (S (S n))
   = IO [dump first_page; Yield refs; Post u h d; dump req] (Raise e)).
Proof.
  unfold _paginate_shorts. split.
  - intros Hex. by rewrite (pull_raise' _ _ _ _ _ (next_created_raise until e Hex)).
  - intros Hu Hex Hc Hb Ht Hp Hex'.
    rewrite (pull_yield' _ _ _ _ _ _
               (next_created' until refs c _ _ Hex
                  (scan_page_not_supplied _ _ _ _ Hu))).
    by rewrite (pull_raise' _ _ _ _ _
                  (next_page_extract_raise until c u h d req e Hc Hb Ht Hp Hex')).
Qed.

(** The page a chain ends on. *)
Lemma chain_last_page (page : json) (bs : list (list string))
    (rs : list (json * json * json)) :
  chain' page bs rs →
  ∃ final refs c, outcome (_extract_shorts dumps final) = Ok (refs, c) ∧
                  truthy c = false ∧ last bs = Some refs ∧
                  (rs = [] → final = page) ∧
                  ∀ until, supplied until = false →
                    (∀ c' u h d n fs,
                       truthy c' = true → build c' = (u, h, d) →
                       truthy u && truthy h && truthy d = true →
                       post u h d = Ok page → length bs < n →
                       files_after (trace (pull' until n (AtPageYield c'))) fs
                         "shorts_initial_data.json" = Some (dumps final)).
Proof.
  induction 1 as [page refs c0 Hex Hc0
    |page refs c0 u0 h0 d0 req bs rs Hex Hc0 Hb0 Ht0 Hp0 Hrest IH].
  - exists page, refs, c0. split_and!; try done.
    intros unt Hu c u h d n fs Hc Hb Ht Hp Hn. simpl in Hn.
    destruct n as [|[|n]]; [lia..|].
    rewrite (pull_yield' _ _ _ _ _ _
               (next_page' unt c u h d page refs c0 _ _ Hc Hb Ht Hp Hex
                  (scan_page_not_supplied _ _ _ _ Hu))).
    by rewrite (pull_stop' _ _ _ _ (next_page_stop' unt c0 Hc0)).
  - destruct IH as (final & refs' & c' & Hfinal & Hc' & Hlast & _ & Hfile).
    exists final, refs', c'. split_and!; try done.
    { pose proof (chain_length _ _ _ _ _ _ Hrest). by destruct bs. }
    intros unt Hu c u h d n fs Hc Hb Ht Hp Hn. simpl in Hn.
    destruct n as [|n]; [lia|].
    rewrite (pull_yield' _ _ _ _ _ _
               (next_page' unt c u h d page refs c0 _ _ Hc Hb Ht Hp Hex
                  (scan_page_not_supplied _ _ _ _ Hu))).
    cbn [trace]. rewrite files_after_app. simpl.
    apply (Hfile unt Hu c0 u0 h0 d0 n); [done..|lia].
Qed.

(** X12: after a walk with no boundary over a finite chain of pages, drained,
    "shorts_initial_data.json" holds the dump of the last page of the chain,
    the page with no token that the last batch came from, whatever the file
    held before: the dump of every earlier page has been overwritten. *)
Theorem dump_holds_last_page (until : option string)
    (bs : list (list string)) (rs : list (json * json * json)) (n : nat) :
  supplied until = false → chain' first_page bs rs → length bs < n →
  ∃ final refs c,
    outcome (_extract_shorts dumps final) = Ok (refs, c) ∧
    truthy c = false ∧ last bs = Some refs ∧
    ∀ fs, files_after (trace (paginate until n)) fs "shorts_initial_data.json"
          = Some (dumps final).
Proof.
  intros Hu Hchain Hn. unfold _paginate_shorts.
  inversion Hchain as [page refs c Hex Hc
    |page refs c u h d req bs' rs' Hex Hc Hb Ht Hp Hrest]; subst; simpl in Hn.
  - exists first_page, refs, c. split_and!; try done. intros fs.
    destruct n as [|[|n]]; [lia..|].
    rewrite (pull_yield' _ _ _ _ _ _
               (next_created' until refs c _ _ Hex
                  (scan_page_not_supplied _ _ _ _ Hu))).
    by rewrite (pull_stop' _ _ _ _ (next_page_stop' until c Hc)).
  - destruct (chain_last_page _ _ _ Hrest)
      as (final & refs' & c' & Hfinal & Hc' & Hlast & _ & Hfile).
    exists final, refs', c'. split_and!; try done.
    { pose proof (chain_length _ _ _ _ _ _ Hrest). by destruct bs'. }
    intros fs. destruct n as [|n]; [lia|].
    rewrite (pull_yield' _ _ _ _ _ _
               (next_created' until refs c _ _ Hex
                  (scan_page_not_supplied _ _ _ _ Hu))).
    cbn [trace]. rewrite files_after_app. simpl.
    apply (Hfile until Hu c u h d n); [done..|lia].
Qed.

End WalkerErrors.

Lemma transport_failure_propagates_witness :
  _paginate_shorts (fun _ => "dump") Pages.build server_down
    Pages.two_pages_first None 2
  = IO [WriteFile "shorts_initial_data.json" "dump";
        Yield ["/shorts/a"; "/shorts/b"; "/shorts/c"];
        Post (JStr "https://www.youtube.com/youtubei/v1/browse")
          (JObj [("Content-Type", JStr "application/json")])
          (JObj [("continuation", JStr "T1")])]
       (Raise TransportError).
Proof.
  apply (transport_failure_propagates (fun _ => "dump") Pages.build server_down
           Pages.two_pages_first None ["/shorts/a"; "/shorts/b"; "/shorts/c"]
           (JStr "T1") _ _ _ TransportError 0); reflexivity.
Defined.

Lemma extraction_failure_propagates_witness :
  _paginate_shorts (fun _ => "dump") Pages.build server_down
    (Pages.continuation_page (one_good_one_bad (Pages.short_entry "/shorts/a")))
    None 1
  = IO [WriteFile "shorts_initial_data.json" "dump"] (Raise KeyError) ∧
  _paginate_shorts (fun _ => "dump") Pages.build
    (always (Pages.continuation_page
               (one_good_one_bad (Pages.short_entry "/shorts/a"))))
    Pages.two_pages_first None 2
  = IO [WriteFile "shorts_initial_data.json" "dump";
        Yield ["/shorts/a"; "/shorts/b"; "/shorts/c"];
        Post (JStr "https://www.youtube.com/youtubei/v1/browse")
          (JObj [("Content-Type", JStr "application/json")])
          (JObj [("continuation", JStr "T1")]);
        WriteFile "shorts_initial_data.json" "dump"]
       (Raise KeyError).
Proof.
  split.
  - apply (proj1 (extraction_failure_propagates (fun _ => "dump") Pages.build
             server_down
             (Pages.continuation_page
                (one_good_one_bad (Pages.short_entry "/shorts/a")))
             None [] JNull JNull JNull JNull JNull KeyError 0)).
    reflexivity.
  - apply (proj2 (extraction_failure_propagates (fun _ => "dump") Pages.build
             (always (Pages.continuation_page
                        (one_good_one_bad (Pages.short_entry "/shorts/a"))))
             Pages.two_pages_first None ["/shorts/a"; "/shorts/b"; "/shorts/c"]
             (JStr "T1") _ _ _
             (Pages.continuation_page
                (one_good_one_bad (Pages.short_entry "/shorts/a")))
             KeyError 0)); reflexivity.
Defined.

Lemma dump_holds_last_page_witness :
  ∃ final refs c,
    outcome (_extract_shorts dumps_tag final) = Ok (refs, c) ∧
    truthy c = false ∧
    last [["/shorts/a"; "/shorts/b"; "/shorts/c"]; ["/shorts/c"; "/shorts/d"]]
      = Some refs ∧
    ∀ fs, files_after
            (trace (_paginate_shorts dumps_tag Pages.build Pages.two_pages_post
                      Pages.two_pages_first None 3))
            fs "shorts_initial_data.json"
          = Some (dumps_tag final).
Proof.
  apply (dump_holds_last_page dumps_tag Pages.build Pages.two_pages_post
           Pages.two_pages_first None
           [["/shorts/a"; "/shorts/b"; "/shorts/c"]; ["/shorts/c"; "/shorts/d"]]
           [Pages.build (JStr "T1")] 3).
  - reflexivity.
  - eapply chain_next; [reflexivity..|]. eapply chain_last; reflexivity.
  - simpl. lia.
Defined.

(** ** The cached pages *)

Section CachedFacts.

Variable get : string → result string.
Variable initial_data : string → result json.

Lemma filled_Some (field : option string) (s : string) :
  filled field = Some s → field = Some s ∧ s ≠ "".
Proof.
  destruct field as [t|]; simpl; [|done].
  destruct (String.eqb_spec t ""); [done|]. by intros [= ->].
Qed.

Lemma filled_nonempty (s : string) : s ≠ "" → filled (Some s) = Some s.
Proof. intros H. simpl. by destruct (String.eqb_spec s ""). Qed.

(** X13: each of the six page properties ([html], [playlists_html],
    [community_html], [featured_channels_html], [about_html],
    [shorts_html]), once it has returned a page that is not empty, returns
    that page again at every later read without a request and without
    changing the object. *)
Theorem page_read_once :
  Forall (fun '(page, field, url) =>
            ∀ (self : channel) (text : string),
              returned (page self) = Ok text → text ≠ "" →
              page (after (page self)) = Access [] (after (page self)) (Ok text))
    (page_properties get).
Proof.
  unfold page_properties. repeat apply List.Forall_cons; try apply List.Forall_nil.
  all: simpl; intros self text.
  all: unfold html, playlists_html, community_html, featured_channels_html,
         about_html, shorts_html.
  all: destruct (filled _) as [t|] eqn:Hf; simpl;
         [intros [= ->] _; by rewrite Hf
         |unfold fetch; destruct (get _); simpl; [|done];
          intros [= ->] Hne; by destruct (String.eqb_spec text "")].
Qed.

(** X14: a page property whose attribute holds no page (or an empty one)
    asks for its url, once; the body it gets, empty or not, is stored in the
    attribute of the property and returned, on the same channel; an empty
    body is stored but does not count as cached, so the next read asks for
    the url again; when the request raises, the object is left as it was and
    the exception goes to the caller. *)
Theorem page_not_cached :
  Forall (fun '(page, field, url) =>
            ∀ self : channel,
              filled (field self) = None →
              (∀ text, get (url self) = Ok text →
                 requested (page self) = [url self] ∧
                 returned (page self) = Ok text ∧
                 field (after (page self)) = Some text ∧
                 channel_uri (after (page self)) = channel_uri self ∧
                 (text = "" →
                  requested (page (after (page self))) = [url self] ∧
                  returned (page (after (page self))) = Ok "" ∧
                  field (after (page (after (page self)))) = Some "")) ∧
              (∀ e, get (url self) = Raise e →
                    page self = Access [url self] self (Raise e)))
    (page_properties get).
Proof.
  unfold page_properties. repeat apply List.Forall_cons; try apply List.Forall_nil.
  all: simpl; intros self Hf.
  all: unfold html, playlists_html, community_html, featured_channels_html,
         about_html, shorts_html.
  all: rewrite Hf; unfold fetch.
  all: split; [|intros e Hget; by rewrite Hget].
  all: intros text Hget; rewrite Hget; simpl.
  all: split_and!; [done..|]; intros ->.
  all: unfold videos_url, playlists_url, community_url, featured_channels_url,
         about_url, shorts_url, channel_url in *; simpl in *.
  all: by rewrite Hget.
Qed.

(** X15: read on an object that holds neither the data nor the page,
    [about_page_initial_data] and [shorts_initial_data] ask for the page
    once and return what [extract.initial_data] makes of it; read again,
    they return the same data without any request, whether the data was
    kept (it is truthy) or is parsed again from the page kept. *)
Theorem initial_data_fetched_once (self : channel) (text : string) (data : json) :
  text ≠ "" → initial_data text = Ok data →
  (loaded (_about_page_initial_data self) = None →
   filled (_about_html self) = None →
   get (about_url self) = Ok text →
   let first := about_page_initial_data get initial_data self in
   requested first = [about_url self] ∧ returned first = Ok data ∧
   requested (about_page_initial_data get initial_data (after first)) = [] ∧
   returned (about_page_initial_data get initial_data (after first)) = Ok data) ∧
  (loaded (_shorts_initial_data self) = None →
   filled (_shorts_html self) = None →
   get (shorts_url self) = Ok text →
   let first := shorts_initial_data get initial_data self in
   requested first = [shorts_url self] ∧ returned first = Ok data ∧
   requested (shorts_initial_data get initial_data (after first)) = [] ∧
   returned (shorts_initial_data get initial_data (after first)) = Ok data).
Proof.
  intros Hne Hparse. split; intros Hl Hf Hget first; subst first.
  - assert (about_page_initial_data get initial_data self
            = Access [about_url self]
                (set_about_page_initial_data (Some data)
                   (set_about_html (Some text) self)) (Ok data)) as ->.
    { unfold about_page_initial_data, parse, about_html, fetch.
      rewrite Hl, Hf, Hget. simpl. by rewrite Hparse. }
    split_and!; [done|done|..];
      unfold about_page_initial_data, parse, about_html; simpl;
      destruct (truthy data); simpl; try done;
      destruct (String.eqb_spec text ""); try done; simpl; by rewrite Hparse.
  - assert (shorts_initial_data get initial_data self
            = Access [shorts_url self]
                (set_shorts_initial_data (Some data)
                   (set_shorts_html (Some text) self)) (Ok data)) as ->.
    { unfold shorts_initial_data, parse, shorts_html, fetch.
      rewrite Hl, Hf, Hget. simpl. by rewrite Hparse. }
    split_and!; [done|done|..];
      unfold shorts_initial_data, parse, shorts_html; simpl;
      destruct (truthy data); simpl; try done;
      destruct (String.eqb_spec text ""); try done; simpl; by rewrite Hparse.
Qed.

End CachedFacts.

Lemma page_read_once_witness :
  let get := fun url : string => Ok ("<html>" +:+ url) in
  let self := new_channel "/@channel" in
  playlists_html get (after (playlists_html get self))
  = Access [] (after (playlists_html get self))
      (Ok "<html>https://www.youtube.com/@channel/playlists").
Proof.
  intros get self.
  apply (List.Forall_inv (List.Forall_inv_tail (page_read_once get)) self);
    [reflexivity|done].
Defined.

Lemma page_not_cached_witness :
  (let get := fun url : string => Ok "" in
   let self := new_channel "/@channel" in
   requested (about_html get self) = ["https://www.youtube.com/@channel/about"] ∧
   _about_html (after (about_html get self)) = Some "" ∧
   requested (about_html get (after (about_html get self)))
   = ["https://www.youtube.com/@channel/about"]) ∧
  (let get := fun url : string => Ok ("<html>" +:+ url) in
   let self := set_about_html (Some "") (new_channel "/@channel") in
   requested (about_html get self) = ["https://www.youtube.com/@channel/about"] ∧
   _about_html (after (about_html get self))
   = Some "<html>https://www.youtube.com/@channel/about") ∧
  (let get := fun url : string => Raise TransportError in
   let self := new_channel "/@channel" in
   about_html get self
   = Access ["https://www.youtube.com/@channel/about"] self (Raise TransportError)).
Proof.
  split_and!; intros get self.
  - destruct (List.Forall_inv
                (List.Forall_inv_tail (List.Forall_inv_tail (List.Forall_inv_tail
                   (List.Forall_inv_tail (page_not_cached get)))))
                self eq_refl) as [Hbody _].
    destruct (Hbody "" eq_refl) as (H1 & _ & H2 & _ & H3).
    destruct (H3 eq_refl) as (H4 & _). by split_and!.
  - destruct (List.Forall_inv
                (List.Forall_inv_tail (List.Forall_inv_tail (List.Forall_inv_tail
                   (List.Forall_inv_tail (page_not_cached get)))))
                self eq_refl) as [Hbody _].
    destruct (Hbody "<html>https://www.youtube.com/@channel/about" eq_refl)
      as (H1 & _ & H2 & _). by split.
  - destruct (List.Forall_inv
                (List.Forall_inv_tail (List.Forall_inv_tail (List.Forall_inv_tail
                   (List.Forall_inv_tail (page_not_cached get)))))
                self eq_refl) as [_ Hraise].
    apply (Hraise TransportError). reflexivity.
Defined.

Lemma initial_data_fetched_once_witness :
  let get := fun url : string => Ok "<html>" in
  let initial_data := fun text : string => Ok (JObj []) in
  let self := new_channel "/@channel" in
  requested (shorts_initial_data get initial_data self)
    = ["https://www.youtube.com/@channel/shorts"] ∧
  requested (shorts_initial_data get initial_data
               (after (shorts_initial_data get initial_data self))) = [] ∧
  requested (about_page_initial_data get initial_data self)
    = ["https://www.youtube.com/@channel/about"] ∧
  requested (about_page_initial_data get initial_data
               (after (about_page_initial_data get initial_data self))) = [].
Proof.
  intros get initial_data self.
  destruct (initial_data_fetched_once get initial_data self "<html>" (JObj []))
    as [Habout Hshorts]; [done|reflexivity|].
  destruct (Habout eq_refl eq_refl eq_refl) as (Ha1 & _ & Ha2 & _).
  destruct (Hshorts eq_refl eq_refl eq_refl) as (Hs1 & _ & Hs2 & _).
  by split_and!.
Defined.

(** ** The getters of the channel metadata *)

Lemma try_keyerror_raises {A} (body : result A) (handler : exn → result A)
    (v : A) (e : exn) :
  (∀ e', handler e' = Ok v) →
  try_except body [KeyError] handler = Raise e →
  body = Raise e ∧ e ≠ KeyError.
Proof.
  intros Hh. destruct body as [a|e']; simpl; [done|].
  case_bool_decide as He.
  - by rewrite Hh.
  - intros [= <-]. split; [done|]. set_solver.
Qed.

Lemma try_keyerror_load {A B} (load : result A) (body : A → result B)
    (handler : exn → result B) (v : B) (e : exn) :
  (∀ e', handler e' = Ok v) →
  try_except (a ← load; body a) [KeyError] handler = Raise e →
  e ≠ KeyError ∧ (load = Raise e ∨ ∃ a, load = Ok a ∧ body a = Raise e).
Proof.
  intros Hh H. apply (try_keyerror_raises _ _ v) in H as [H Hne]; [|done].
  split; [done|]. destruct load as [a|e']; simpl in H; [right|left; congruence].
  by exists a.
Qed.

(** X16: none of the getters [description], [keywords], [avatar_thumbnail]
    and [country] ever raises [KeyError], be it a [KeyError] of the lookups
    or of the read of [self.initial_data] / [self.about_page_initial_data],
    which stands inside the [try]: a [KeyError] of the read gives the
    fallback ([None], or the empty list for [keywords]); any other
    exception of the read reaches the caller as it is; and an exception that
    leaves a getter is the one of the read or, once the data is there,
    [TypeError] for [description] and [keywords], whose paths hold keys only,
    [IndexError] or [TypeError] for [avatar_thumbnail] and [country], whose
    paths also index lists.  On a loaded document the getters are the
    functions of the document stated above. *)
Theorem getters_never_raise_KeyError (load : result json) (e : exn) :
  (Getter.description load = Raise e →
   e ≠ KeyError ∧ (load = Raise e ∨ e = TypeError)) ∧
  (Getter.keywords load = Raise e →
   e ≠ KeyError ∧ (load = Raise e ∨ e = TypeError)) ∧
  (Getter.avatar_thumbnail load = Raise e →
   e ≠ KeyError ∧ (load = Raise e ∨ e = IndexError ∨ e = TypeError)) ∧
  (Getter.country load = Raise e →
   e ≠ KeyError ∧ (load = Raise e ∨ e = IndexError ∨ e = TypeError)) ∧
  (load = Raise KeyError →
   Getter.description load = Ok JNull ∧
   Getter.keywords load = Ok (JArr []) ∧
   Getter.avatar_thumbnail load = Ok JNull ∧
   Getter.country load = Ok JNull) ∧
  (load = Raise e → e ≠ KeyError →
   Getter.description load = Raise e ∧
   Getter.keywords load = Raise e ∧
   Getter.avatar_thumbnail load = Raise e ∧
   Getter.country load = Raise e) ∧
  (∀ doc, load = Ok doc →
   Getter.description load = description doc ∧
   Getter.keywords load = keywords doc ∧
   Getter.avatar_thumbnail load = avatar_thumbnail doc ∧
   Getter.country load = country doc) ∧
  (∀ get initial_data self,
     returned (Getter.channel_country get initial_data self) = Raise e →
     e ≠ KeyError ∧
     (returned (about_page_initial_data get initial_data self) = Raise e ∨
      e = IndexError ∨ e = TypeError)).
Proof.
  assert (∀ load', Getter.country load' = Raise e →
            e ≠ KeyError ∧ (load' = Raise e ∨ e = IndexError ∨ e = TypeError))
    as Hcountry.
  { intros load' H.
    apply (try_keyerror_load _ _ _ JNull) in H as [Hne [H|(doc & _ & H)]];
      [by auto| |done].
    split; [done|]. right. apply getpath_raises in H. set_solver. }
  split_and!.
  - intros H.
    apply (try_keyerror_load _ _ _ JNull) in H as [Hne [H|(doc & _ & H)]];
      [by auto| |done].
    change [KStr "metadata"; KStr "channelMetadataRenderer"; KStr "description"]
      with (KStr <$> ["metadata"; "channelMetadataRenderer"; "description"]) in H.
    apply getpath_str_raises in H as [->| ->]; [done|by auto].
  - intros H.
    apply (try_keyerror_load _ _ _ (JArr [])) in H as [Hne [H|(doc & _ & H)]];
      [by auto| |done].
    change [KStr "microformat"; KStr "microformatDataRenderer"; KStr "tags"]
      with (KStr <$> ["microformat"; "microformatDataRenderer"; "tags"]) in H.
    apply getpath_str_raises in H as [->| ->]; [done|by auto].
  - intros H.
    apply (try_keyerror_load _ _ _ JNull) in H as [Hne [H|(doc & _ & H)]];
      [by auto| |done].
    split; [done|]. right. apply getpath_raises in H. set_solver.
  - apply Hcountry.
  - by intros ->.
  - intros -> Hne.
    unfold Getter.description, Getter.keywords, Getter.avatar_thumbnail,
      Getter.country; simpl.
    rewrite bool_decide_false by set_solver. done.
  - by intros doc ->.
  - intros get initial_data self. apply Hcountry.
Qed.

Lemma getters_never_raise_KeyError_witness :
  (TypeError ≠ KeyError ∧
   (Ok (JObj [("metadata", JArr [])]) = Raise TypeError ∨ TypeError = TypeError)) ∧
  (Getter.description (Raise KeyError) = Ok JNull ∧
   Getter.keywords (Raise KeyError) = Ok (JArr []) ∧
   Getter.avatar_thumbnail (Raise KeyError) = Ok JNull ∧
   Getter.country (Raise KeyError) = Ok JNull) ∧
  (let get := fun url : string => Raise TransportError in
   let initial_data := fun text : string => Ok (JObj []) in
   let self := new_channel "/@channel" in
   TransportError ≠ KeyError ∧
   (returned (about_page_initial_data get initial_data self)
    = Raise TransportError
    ∨ TransportError = IndexError ∨ TransportError = TypeError)).
Proof.
  split; [|split].
  - apply (proj1 (getters_never_raise_KeyError
                    (Ok (JObj [("metadata", JArr [])])) TypeError)).
    reflexivity.
  - apply (proj1 (proj2 (proj2 (proj2 (proj2
             (getters_never_raise_KeyError (Raise KeyError) KeyError)))))).
    reflexivity.
  - intros get initial_data self.
    apply (proj2 (proj2 (proj2 (proj2 (proj2 (proj2 (proj2
             (getters_never_raise_KeyError (Raise TransportError)
                TransportError))))))) get initial_data self).
    reflexivity.
Defined.

(** X17: [avatar_thumbnail] returns the url of the last thumbnail of the
    list; a list of thumbnails that is empty makes it raise [IndexError],
    which its [except KeyError] does not catch, and a last thumbnail that
    is a dict with no "url" makes it return [None]. *)
Theorem avatar_thumbnail_last (doc : json) (thumbnails : list json) :
  getpath doc avatar_thumbnails_path = Ok (JArr thumbnails) →
  (thumbnails = [] → avatar_thumbnail doc = Raise IndexError) ∧
  (∀ before last url,
     thumbnails = before ++ [last] → getitem last (KStr "url") = Ok url →
     avatar_thumbnail doc = Ok url) ∧
  (∀ before last,
     thumbnails = before ++ [last] → getitem last (KStr "url") = Raise KeyError →
     avatar_thumbnail doc = Ok JNull).
Proof.
  intros Hpath. unfold avatar_thumbnail. rewrite getpath_app, Hpath.
  cbn [mbind result_bind getpath getitem]. split_and!.
  - by intros ->.
  - intros before last url -> Hurl. rewrite list_getitem_last.
    cbn [mbind result_bind]. by rewrite Hurl.
  - intros before last -> Hurl. rewrite list_getitem_last.
    cbn [mbind result_bind]. by rewrite Hurl.
Qed.

Lemma avatar_thumbnail_last_witness :
  avatar_thumbnail
    (Pages.nest ["metadata"; "channelMetadataRenderer"; "avatar"; "thumbnails"]
       (JArr [JObj [("url", JStr "small.jpg")]; JObj [("url", JStr "large.jpg")]]))
  = Ok (JStr "large.jpg") ∧
  avatar_thumbnail
    (Pages.nest ["metadata"; "channelMetadataRenderer"; "avatar"; "thumbnails"]
       (JArr []))
  = Raise IndexError.
Proof.
  split.
  - destruct (avatar_thumbnail_last
                (Pages.nest ["metadata"; "channelMetadataRenderer"; "avatar";
                             "thumbnails"]
                   (JArr [JObj [("url", JStr "small.jpg")];
                          JObj [("url", JStr "large.jpg")]]))
                _ eq_refl) as (_ & Hlast & _).
    apply (Hlast [JObj [("url", JStr "small.jpg")]]
                 (JObj [("url", JStr "large.jpg")])); reflexivity.
  - destruct (avatar_thumbnail_last
                (Pages.nest ["metadata"; "channelMetadataRenderer"; "avatar";
                             "thumbnails"] (JArr []))
                _ eq_refl) as (Hempty & _ & _).
    by apply Hempty.
Defined.







(** X19: [banner_thumbnail] is all or nothing.  When every source of the
    banner maps, it returns their strings in order; when one source lacks a
    key ("width", "height" or "url"), it returns [None], the strings built
    from the sources before it being dropped; an error of another class in
    a source leaves the getter. *)
Theorem banner_thumbnail_all_or_nothing (py_str : json → string)
    (unquote : json → result string) (doc : json) (sources : list json) :
  getpath doc banner_sources_path = Ok (JArr sources) →
  (∀ strings,
     map_result (banner_source py_str unquote) sources = Ok strings →
     banner_thumbnail py_str unquote doc = Ok (JArr (JStr <$> strings))) ∧
  (∀ good bad rest e,
     sources = good ++ bad :: rest →
     Forall (fun x => ∃ r, banner_source py_str unquote x = Ok r) good →
     banner_source py_str unquote bad = Raise e →
     banner_thumbnail py_str unquote doc
     = if bool_decide (e = KeyError) then Ok JNull else Raise e).
Proof.
  intros Hpath. unfold banner_thumbnail. rewrite Hpath.
  cbn [mbind result_bind iterate]. split.
  - intros strings Hmap. by rewrite Hmap.
  - intros good bad rest e -> Hgood Hbad.
    rewrite (map_result_raise _ good bad rest e Hgood Hbad). simpl.
    case_bool_decide as He; case_bool_decide as He'; try done.
    + set_solver.
    + subst. set_solver.
Qed.

Lemma banner_thumbnail_all_or_nothing_witness :
  let py_str v := match v with JInt 1060 => "1060" | JInt 175 => "175"
                          | _ => "?" end in
  let unquote v := match v with JStr s => Ok s | _ => Raise TypeError end in
  let doc sources :=
    Pages.nest ["header"; "pageHeaderRenderer"; "content"; "pageHeaderViewModel";
                "banner"; "imageBannerViewModel"; "image"; "sources"]
      (JArr sources) in
  let good := JObj [("url", JStr "yt3.example/banner"); ("width", JInt 1060);
                    ("height", JInt 175)] in
  banner_thumbnail py_str unquote (doc [good])
    = Ok (JArr [JStr "1060x175: https://yt3.example/banner"]) ∧
  banner_thumbnail py_str unquote (doc [good; JObj [("width", JInt 1060)]])
    = Ok JNull.
Proof.
  intros py_str unquote doc good. split.
  - apply (proj1 (banner_thumbnail_all_or_nothing py_str unquote (doc [good])
                    [good] eq_refl) ["1060x175: https://yt3.example/banner"]).
    reflexivity.
  - apply (proj2 (banner_thumbnail_all_or_nothing py_str unquote
                    (doc [good; JObj [("width", JInt 1060)]])
                    [good; JObj [("width", JInt 1060)]] eq_refl)
             [good] (JObj [("width", JInt 1060)]) [] KeyError);
      [reflexivity| |reflexivity].
    constructor; [eexists; reflexivity|constructor].
Defined.

(** ** A walk over one page *)

(** X20: when the first page carries, in any of the three known trees,
    entries the lambda maps to [paths] and then either no continuation
    marker or a marker whose token is falsy (an empty string, null), a walk
    with no boundary writes the dump, yields the one batch of the distinct
    paths and is exhausted at the next resumption: no request is built or
    sent, whatever the server would answer. *)
Theorem single_page_walk (dumps : json → string)
    (build : json → json * json * json)
    (post : json → json → json → result json) (other : json)
    (es : list json) (paths : list string) (token first_page : json)
    (until : option string) (n : nat) :
  map_result short_path es = Ok paths → supplied until = false →
  (first_page ∈ shorts_pages other (JArr (es ++ [Pages.marker token])) ∧
   truthy token = false) ∨
  (first_page ∈ shorts_pages other (JArr es) ∧ no_marker es) →
  _paginate_shorts dumps build post first_page until (S (S n))
  = IO [WriteFile "shorts_initial_data.json" (dumps first_page);
        Yield (uniqueify paths)] (Ok Closed).
Proof.
  intros Hmap Hu Hpage.
  assert (∃ c, outcome (_extract_shorts dumps first_page) = Ok (uniqueify paths, c)
               ∧ truthy c = false) as (c & Hex & Hc).
  { destruct Hpage as [[Hpage Htoken]|[Hpage Hes]].
    - exists token. split; [by eapply shorts_page_marker|done].
    - exists JNull. split; [by eapply shorts_page_final|done]. }
  unfold _paginate_shorts.
  rewrite (pull_yield _ _ _ _ _ _ _ _ _ _
             (next_created dumps build post first_page until _ c _ _ Hex
                (scan_page_not_supplied _ _ _ _ Hu))).
  by rewrite (pull_stop _ _ _ _ _ _ _ _
                (next_page_stop dumps build post first_page until c Hc)).
Qed.

Lemma single_page_walk_witness :
  _paginate_shorts (fun _ => "dump") Pages.build server_down
    (Pages.continuation_page (JArr (Pages.shorts ["a"; "b"] ++ [Pages.marker (JStr "")])))
    None 2
  = IO [WriteFile "shorts_initial_data.json" "dump";
        Yield ["/shorts/a"; "/shorts/b"]] (Ok Closed).
Proof.
  apply (single_page_walk (fun _ => "dump") Pages.build server_down JNull
           (Pages.shorts ["a"; "b"]) ["/shorts/a"; "/shorts/b"] (JStr "")
           (Pages.continuation_page
              (JArr (Pages.shorts ["a"; "b"] ++ [Pages.marker (JStr "")])))
           None 0 eq_refl eq_refl).
  left. split; [|reflexivity].
  unfold shorts_pages. apply list_elem_of_further, list_elem_of_further, list_elem_of_here.
Defined.
